(** * BotcoinAdmin: the redemption handler and the notification feed

    A shallow embedding of two pieces of the admin console:

    - the change handler of the home screen's notification feed
      (HomeScreen: the [postgres_changes] callback, [getNotificationType],
      [markNotificationAsRead]);
    - [handleRequestAction] of the transactions screen, which approves or
      rejects a redemption request against the hosted tables
      [redemption_requests], [user_profiles] and [transactions].

    Tables are lists of rows in table order.  Every call to the hosted
    store may fail; such failures are inputs of the model (see [Env]). *)

From Stdlib Require Import ZArith List String Bool Lia PeanoNat.
From Stdlib Require Import Sorted Permutation DecimalString.
Import ListNotations.

Local Open Scope string_scope.

(* ===================================================================== *)
(** ** Part 1: the notification feed (HomeScreen) *)
(* ===================================================================== *)

(** [Notification['type']] of admin.types. *)
Inductive NotificationType := info | success | warning | error.

Module Notification.
  (** [interface Notification] of admin.types. *)
Record t := mk {
    id : string;
    title : string;
    message : string;
    type : NotificationType;
    created_at : string;
    read : bool
  }.
End Notification.

Module Raw.
  (** The columns of a [system_notifications] row that the screen reads
      ([payload.new] / [payload.old]). *)
Record t := mk {
    id : string;
    title : string;
    message : string;
    priority : string;
    created_at : string
  }.
End Raw.

(** The change-feed payload: [eventType] with the row it carries. *)
Inductive Payload :=
| INSERT (new : Raw.t)
| UPDATE (new : Raw.t)
| DELETE (old : Raw.t).

Definition getNotificationType (priority : string) : NotificationType :=
  if priority =? "critical" then error
  else if priority =? "high" then warning
  else info.

(** The object literal built for an INSERT event (and by
    [fetchNotifications] for every fetched row). *)
Definition newNotification (r : Raw.t) : Notification.t :=
  Notification.mk (Raw.id r) (Raw.title r) (Raw.message r)
    (getNotificationType (Raw.priority r)) (Raw.created_at r) false.

(** [{ ...notif, title, message, type }] *)
Definition overwrite (r : Raw.t) (notif : Notification.t) : Notification.t :=
  Notification.mk (Notification.id notif) (Raw.title r) (Raw.message r)
    (getNotificationType (Raw.priority r))
    (Notification.created_at notif) (Notification.read notif).

(** [{ ...notif, read: true }] *)
Definition asRead (notif : Notification.t) : Notification.t :=
  Notification.mk (Notification.id notif) (Notification.title notif)
    (Notification.message notif) (Notification.type notif)
    (Notification.created_at notif) true.

(** The state updater run by the subscription callback on [prev]. *)
Definition onChange (payload : Payload) (prev : list Notification.t)
  : list Notification.t :=
  match payload with
  | INSERT new => newNotification new :: prev
  | UPDATE new =>
      map (fun notif =>
             if Notification.id notif =? Raw.id new
             then overwrite new notif else notif) prev
  | DELETE old =>
      filter (fun notif => negb (Notification.id notif =? Raw.id old)) prev
  end.

Definition markNotificationAsRead (notificationId : string)
  (prev : list Notification.t) : list Notification.t :=
  map (fun notif =>
         if Notification.id notif =? notificationId
         then asRead notif else notif) prev.

Definition markAllAsRead (prev : list Notification.t) : list Notification.t :=
  map asRead prev.

(** [fetchNotifications]: the fetched rows replace the local list. *)
Definition fetchedNotifications (data : list Raw.t) : list Notification.t :=
  map newNotification data.

(** A later version of a row: same id and creation time, new content. *)
Definition revised (a : Raw.t) (title' message' priority' : string) : Raw.t :=
  Raw.mk (Raw.id a) title' message' priority' (Raw.created_at a).

Definition hasId (i : string) (l : list Notification.t) : Prop :=
  exists n, In n l /\ Notification.id n = i.

(** What the specification expects of an update whose id the feed does not
    hold, at one record and one sequence: the record is there afterwards. *)
Definition update_of_absent_inserts (r : Raw.t) (prev : list Notification.t)
  : Prop :=
  (forall n, In n prev -> Notification.id n <> Raw.id r) ->
  hasId (Raw.id r) (onChange (UPDATE r) prev).

(* ===================================================================== *)
(** ** Part 2: redemption requests (TransactionsScreen) *)
(* ===================================================================== *)

(** *** Rows of the hosted tables (admin.types)

    Columns that the screen only displays (names, GCash number, tier, ...)
    are left out.  Points are integers, held as the JS numbers the client
    reads (see [roundToDouble] for their arithmetic).  [toISOString]
    instants are numbered in chronological order. *)

Definition Timestamp := nat.

Module ReqStatus.
Inductive t := pending | processing | completed | rejected.
Definition eqb (a b : t) : bool :=
    match a, b with
    | pending, pending | processing, processing
    | completed, completed | rejected, rejected => true
    | _, _ => false
    end.
End ReqStatus.

Module TxStatus.
Inductive t := pending | completed | failed.
End TxStatus.

Inductive TransactionType := earned | redeemed | bonus.

(** The [action] parameter of [handleRequestAction]:
    ['pending' | 'completed' | 'rejected']. *)
Module Action.
Inductive t := pending | completed | rejected.
Definition status (a : t) : ReqStatus.t :=
    match a with
    | pending => ReqStatus.pending
    | completed => ReqStatus.completed
    | rejected => ReqStatus.rejected
    end.
End Action.

(** A transaction's description: free text written elsewhere, or the
    template [`GCash redemption - P${cash_amount.toFixed(2)} (${outcome})`]
    with the values that fill it. *)
Inductive Description :=
| Text (s : string)
| GCashRedemption (cash_amount : Z) (outcome : string).

Module RedemptionRequest.
Record t := mk {
    id : string;
    user_id : string;
    points_redeemed : Z;
    cash_amount : Z;          (* in centavos; only ever formatted *)
    status : ReqStatus.t;
    processed_at : option Timestamp;
    created_at : Timestamp;
    updated_at : Timestamp
  }.
End RedemptionRequest.

Module UserProfile.
Record t := mk {
    user_id : string;
    total_points : Z;
    available_points : Z;
    redeemed_points : Z;
    updated_at : Timestamp
  }.
End UserProfile.

Module Transaction.
Record t := mk {
    id : string;
    user_id : string;
    type : TransactionType;
    amount : Z;
    description : Description;
    status : TxStatus.t;
    reference_id : option string;
    created_at : Timestamp;
    updated_at : Timestamp
  }.
End Transaction.

(** The hosted tables.  [admins] holds the ids of the rows of the
    [admins] table. *)
Record Db := mkDb {
  admins : list string;
  redemption_requests : list RedemptionRequest.t;
  user_profiles : list UserProfile.t;
  transactions : list Transaction.t
}.

(** The React state of the screen. *)
Record Ui := mkUi {
  redemptionRequests : list RedemptionRequest.t;
  transactionHistory : list Transaction.t;
  selectedRequest : option RedemptionRequest.t;
  modalVisible : bool;
  processingAction : bool
}.

(** *** Errors, alerts and the console *)

(** The [error] of a store response.  [PGRST116] is what [.single()]
    answers when the result is not exactly one row; [Failure] is any other
    failure of the call (network, permission, constraint). *)
Inductive StoreError :=
| PGRST116
| Failure (message : string).

(** What the handler throws: a store error, or
    [new Error(`User no longer has sufficient points. Available: ..., Required: ...`)]. *)
Inductive Thrown :=
| Store (e : StoreError)
| InsufficientPoints (available required : Z).

Inductive Alert :=
| AlertText (title message : string)
| AlertSuccess (action : Action.t)   (* 'Success', `Request has been ...` *)
| AlertFailed (action : Action.t) (e : Thrown).
                                     (* 'Error', `Failed to ${action} request: ${error}` *)

(** [console.error] and [console.warn] lines, by their leading text. *)
Inductive ConsoleEntry :=
| ConsoleError (label : string) (e : Thrown)
| ConsoleWarn (label : string).

(** *** What lies outside the screen *)

(** The store calls of the screen, one per call site. *)
Inductive Call :=
| UpdateRequest | SelectProfile | UpdatePoints
| CheckTransaction | UpdateTransaction | InsertTransaction
| RejectTransaction
| SelectAdmin | SelectRequests | SelectTransactions.

(** The places where the handler reads the clock ([new Date()]). *)
Inductive DateSite :=
| AtUpdatedAt | AtProcessedAt | AtPoints
| AtTxUpdate | AtTxCreated | AtTxUpdated | AtTxRejected
| AtLocalState.

Record Env := mkEnv {
  auth_user : option string;       (* [supabase.auth.getUser()], if any *)
  now : DateSite -> Timestamp;     (* what [new Date()] reads at each site *)
  generated_id : string;           (* the id the store gives an inserted row *)
  fault : Call -> option string    (* the calls that fail, with the message *)
}.

Record World := mkWorld {
  db : Db;
  ui : Ui;
  alerts : list Alert;             (* oldest first *)
  console : list ConsoleEntry      (* oldest first *)
}.

(** *** A state-and-exception monad over [World] *)

Inductive Result (A : Type) :=
| Ok (a : A)
| Throw (e : Thrown).
Arguments Ok {A} a.
Arguments Throw {A} e.

Definition Op (A : Type) := World -> World * Result A.

Definition ret {A} (a : A) : Op A := fun w => (w, Ok a).

Definition throw {A} (e : Thrown) : Op A := fun w => (w, Throw e).

Definition bind {A B} (c : Op A) (k : A -> Op B) : Op B :=
  fun w => match c w with
           | (w', Ok a) => k a w'
           | (w', Throw e) => (w', Throw e)
           end.

Declare Scope op_scope.
Delimit Scope op_scope with op.
Notation "x <- c ;; k" := (bind c (fun x => k))
  (at level 61, c at next level, right associativity) : op_scope.
Notation "c ;; k" := (bind c (fun _ => k))
  (at level 61, right associativity) : op_scope.
Local Open Scope op_scope.

(** [try { c } catch (error) { h error }] *)
Definition try_catch {A} (c : Op A) (h : Thrown -> Op A) : Op A :=
  fun w => match c w with
           | (w', Ok a) => (w', Ok a)
           | (w', Throw e) => h e w'
           end.

(** [await Promise.all([a, b])]: both run; the rejection of [a], if any,
    is the one reported.  The two interleave at their awaits; the model
    runs [a] before [b].  The two fetches of this screen write nothing to
    the store and set different fields of the screen, so the order shows
    only in the order of their alerts and logs. *)
Definition promise_all {A B} (a : Op A) (b : Op B) : Op unit :=
  fun w => let (w1, ra) := a w in
           let (w2, rb) := b w1 in
           (w2, match ra, rb with
                | Throw e, _ => Throw e
                | Ok _, Throw e => Throw e
                | Ok _, Ok _ => Ok tt
                end).

Definition modify (f : World -> World) : Op unit := fun w => (f w, Ok tt).

Definition get {A} (f : World -> A) : Op A := fun w => (w, Ok (f w)).

Definition alert (a : Alert) : Op unit :=
  modify (fun w => mkWorld (db w) (ui w) (alerts w ++ [a]) (console w)).

Definition console_error (label : string) (e : Thrown) : Op unit :=
  modify (fun w => mkWorld (db w) (ui w) (alerts w)
                     (console w ++ [ConsoleError label e])).

Definition console_warn (label : string) : Op unit :=
  modify (fun w => mkWorld (db w) (ui w) (alerts w)
                     (console w ++ [ConsoleWarn label])).

Definition set_db (d : Db) : Op unit :=
  modify (fun w => mkWorld d (ui w) (alerts w) (console w)).

Definition set_ui (f : Ui -> Ui) : Op unit :=
  modify (fun w => mkWorld (db w) (f (ui w)) (alerts w) (console w)).

Definition setRedemptionRequests
  (f : list RedemptionRequest.t -> list RedemptionRequest.t) : Op unit :=
  set_ui (fun u => mkUi (f (redemptionRequests u)) (transactionHistory u)
                     (selectedRequest u) (modalVisible u) (processingAction u)).

Definition setTransactionHistory (l : list Transaction.t) : Op unit :=
  set_ui (fun u => mkUi (redemptionRequests u) l
                     (selectedRequest u) (modalVisible u) (processingAction u)).

Definition setModalVisible (b : bool) : Op unit :=
  set_ui (fun u => mkUi (redemptionRequests u) (transactionHistory u)
                     (selectedRequest u) b (processingAction u)).

Definition setProcessingAction (b : bool) : Op unit :=
  set_ui (fun u => mkUi (redemptionRequests u) (transactionHistory u)
                     (selectedRequest u) (modalVisible u) b).

(** *** The store calls

    The answer [{ data, error }] of a query: [data] when [error] is null. *)
Inductive Response (A : Type) :=
| data (d : A)
| fail (e : StoreError).
Arguments data {A} d.
Arguments fail {A} e.

(** [.update(...)] with its [.eq] filters: every matching row is
    rewritten; a failed call changes nothing.  Answers the table and the
    rewritten rows (what a trailing [.select()] returns). *)
Definition update_rows {A} (fault : option string) (matching : A -> bool)
  (f : A -> A) (rows : list A) : list A * Response (list A) :=
  match fault with
  | Some m => (rows, fail (Failure m))
  | None =>
      (map (fun r => if matching r then f r else r) rows,
       data (map f (filter matching rows)))
  end.

(** [.select(...)] with its filters and [.single()]. *)
Definition select_single {A} (fault : option string) (matching : A -> bool)
  (rows : list A) : Response A :=
  match fault with
  | Some m => fail (Failure m)
  | None =>
      match filter matching rows with
      | [r] => data r
      | _ => fail PGRST116
      end
  end.

(** [.insert(row)]: the row is added after the others. *)
Definition insert_row {A} (fault : option string) (row : A) (rows : list A)
  : list A * Response unit :=
  match fault with
  | Some m => (rows, fail (Failure m))
  | None => ((rows ++ [row])%list, data tt)
  end.

(** [.order('created_at', { ascending: false })]: latest first; rows of
    equal [created_at] stay in table order. *)
Fixpoint insert_desc {A} (key : A -> nat) (x : A) (l : list A) : list A :=
  match l with
  | [] => [x]
  | y :: l' => if (key y <=? key x)%nat then x :: l
               else y :: insert_desc key x l'
  end.

Definition order_desc {A} (key : A -> nat) (l : list A) : list A :=
  fold_right (insert_desc key) [] l.

(** [.select(...).order('created_at', { ascending: false }).limit(n)] *)
Definition select_latest {A} (fault : option string) (key : A -> nat)
  (n : nat) (rows : list A) : Response (list A) :=
  match fault with
  | Some m => fail (Failure m)
  | None => data (firstn n (order_desc key rows))
  end.

Definition with_requests (l : list RedemptionRequest.t) (d : Db) : Db :=
  mkDb (admins d) l (user_profiles d) (transactions d).

Definition with_profiles (l : list UserProfile.t) (d : Db) : Db :=
  mkDb (admins d) (redemption_requests d) l (transactions d).

Definition with_transactions (l : list Transaction.t) (d : Db) : Db :=
  mkDb (admins d) (redemption_requests d) (user_profiles d) l.

(** *** checkAdminStatus and the two fetches *)

Definition checkAdminStatus (env : Env) : Op bool :=
  match auth_user env with
  | None => ret false
  | Some user =>
      d <- get db ;;
      match select_single (fault env SelectAdmin)
              (fun a => a =? user) (admins d) with
      | fail _ => ret false
      | data _ => ret true
      end
  end.

Definition fetchRedemptionRequests (env : Env) : Op unit :=
  try_catch
    (isAdmin <- checkAdminStatus env ;;
     if negb isAdmin then
       alert (AlertText "Access Denied" "You do not have admin privileges") ;;
       setRedemptionRequests (fun _ => [])
     else
       d <- get db ;;
       match select_latest (fault env SelectRequests)
               RedemptionRequest.created_at 50 (redemption_requests d) with
       | fail e => console_error "Supabase error:" (Store e) ;;
                   throw (Store e)
       | data rows => setRedemptionRequests (fun _ => rows)
       end)
    (fun e =>
       console_error "Error fetching redemption requests:" e ;;
       alert (AlertText "Error"
                "Failed to load redemption requests. Please try again.") ;;
       throw e).

Definition fetchTransactionHistory (env : Env) : Op unit :=
  try_catch
    (isAdmin <- checkAdminStatus env ;;
     if negb isAdmin then
       alert (AlertText "Access Denied" "You do not have admin privileges") ;;
       setTransactionHistory []
     else
       d <- get db ;;
       match select_latest (fault env SelectTransactions)
               Transaction.created_at 100 (transactions d) with
       | fail e => console_error "Supabase error:" (Store e) ;;
                   throw (Store e)
       | data rows => setTransactionHistory rows
       end)
    (fun e =>
       console_error "Error fetching transaction history:" e ;;
       alert (AlertText "Error"
                "Failed to load transaction history. Please try again.") ;;
       throw e).

(** *** handleRequestAction *)

(** [updateData] applied to a row of [redemption_requests]:
    [processed_at] is part of it only when [action !== 'pending']. *)
Definition updateData (env : Env) (action : Action.t)
  (r : RedemptionRequest.t) : RedemptionRequest.t :=
  RedemptionRequest.mk (RedemptionRequest.id r) (RedemptionRequest.user_id r)
    (RedemptionRequest.points_redeemed r) (RedemptionRequest.cash_amount r)
    (Action.status action)
    (match action with
     | Action.pending => RedemptionRequest.processed_at r
     | _ => Some (now env AtProcessedAt)
     end)
    (RedemptionRequest.created_at r)
    (now env AtUpdatedAt).

Definition hasRequestId (request : RedemptionRequest.t)
  (r : RedemptionRequest.t) : bool :=
  RedemptionRequest.id r =? RedemptionRequest.id request.

Definition hasUserId (request : RedemptionRequest.t) (p : UserProfile.t)
  : bool :=
  UserProfile.user_id p =? RedemptionRequest.user_id request.

(** [.eq('reference_id', request.id).eq('type', 'redeemed')] *)
Definition isRedeemedFor (reference : string) (t : Transaction.t) : bool :=
  match Transaction.reference_id t, Transaction.type t with
  | Some r, redeemed => r =? reference
  | _, _ => false
  end.

(** *** Arithmetic of JS numbers on integers

    A JS number is a double, and the numeric fields of the model hold the
    values as the client reads them.  On integer operands [a + b] and
    [a - b] are the exact result rounded to the nearest double: exact up
    to 2^53 in magnitude, and beyond that rounded to 53 significant bits,
    ties to the even significand (the results stay finite for every value
    an integer column can hold).  Comparison and negation are exact. *)
Definition roundToDouble (n : Z) : Z :=
  let a := Z.abs n in
  if (a <=? 9007199254740992)%Z then n
  else
    let e := (Z.log2 a - 52)%Z in
    let q := Z.shiftr a e in
    let r := (a - Z.shiftl q e)%Z in
    let half := Z.shiftl 1 (e - 1) in
    let q' := if (r <? half)%Z then q
              else if (half <? r)%Z then (q + 1)%Z
              else if Z.even q then q else (q + 1)%Z in
    (Z.sgn n * Z.shiftl q' e)%Z.

Definition number_add (a b : Z) : Z := roundToDouble (a + b).

Definition number_sub (a b : Z) : Z := roundToDouble (a - b).

(** [Number.MAX_SAFE_INTEGER], 2^53 - 1. *)
Definition MAX_SAFE_INTEGER : Z := 9007199254740991.

Definition withPoints (available redeemed_ : Z) (at_ : Timestamp)
  (p : UserProfile.t) : UserProfile.t :=
  UserProfile.mk (UserProfile.user_id p) (UserProfile.total_points p)
    available redeemed_ at_.

(** The [update] of an existing transaction: status, description and
    [updated_at]. *)
Definition amend (st : TxStatus.t) (d : Description) (at_ : Timestamp)
  (t : Transaction.t) : Transaction.t :=
  Transaction.mk (Transaction.id t) (Transaction.user_id t)
    (Transaction.type t) (Transaction.amount t) d st
    (Transaction.reference_id t) (Transaction.created_at t) at_.

(** The row inserted when the request has no transaction yet. *)
Definition newTransaction (env : Env) (request : RedemptionRequest.t)
  : Transaction.t :=
  Transaction.mk (generated_id env) (RedemptionRequest.user_id request)
    redeemed (- RedemptionRequest.points_redeemed request)%Z
    (GCashRedemption (RedemptionRequest.cash_amount request) "Completed")
    TxStatus.completed (Some (RedemptionRequest.id request))
    (now env AtTxCreated) (now env AtTxUpdated).

(** Step 5 of the completion: look the transaction of the request up,
    update it if there is one, insert it otherwise.  A failed update or
    insert is logged and not thrown. *)
Definition recordTransaction (env : Env) (request : RedemptionRequest.t)
  : Op unit :=
  d <- get db ;;
  match select_single (fault env CheckTransaction)
          (isRedeemedFor (RedemptionRequest.id request)) (transactions d) with
  | fail (Failure m) =>
      console_error "Error checking for existing transaction:"
        (Store (Failure m)) ;;
      throw (Store (Failure m))
  | data existingTransaction =>
      let (rows, r) :=
        update_rows (fault env UpdateTransaction)
          (fun t => Transaction.id t =? Transaction.id existingTransaction)
          (amend TxStatus.completed
             (GCashRedemption (RedemptionRequest.cash_amount request)
                "Completed")
             (now env AtTxUpdate))
          (transactions d) in
      set_db (with_transactions rows d) ;;
      match r with
      | fail transactionError =>
          console_error "Error updating transaction:" (Store transactionError)
      | data _ => ret tt
      end
  | fail PGRST116 =>
      let (rows, r) :=
        insert_row (fault env InsertTransaction) (newTransaction env request)
          (transactions d) in
      set_db (with_transactions rows d) ;;
      match r with
      | fail transactionError =>
          console_error "Error creating transaction record:"
            (Store transactionError)
      | data _ => ret tt
      end
  end.

(** The branch [action === 'completed']. *)
Definition completeRedemption (env : Env) (request : RedemptionRequest.t)
  : Op unit :=
  d <- get db ;;
  match select_single (fault env SelectProfile) (hasUserId request)
          (user_profiles d) with
  | fail profileError =>
      console_error "Error fetching user profile:" (Store profileError) ;;
      throw (Store profileError)
  | data currentProfile =>
      let available := UserProfile.available_points currentProfile in
      let points := RedemptionRequest.points_redeemed request in
      if (available <? points)%Z then
        throw (InsufficientPoints available points)
      else
        let newAvailablePoints := number_sub available points in
        let newRedeemedPoints :=
          number_add (UserProfile.redeemed_points currentProfile) points in
        let (rows, r) :=
          update_rows (fault env UpdatePoints) (hasUserId request)
            (withPoints newAvailablePoints newRedeemedPoints
               (now env AtPoints))
            (user_profiles d) in
        set_db (with_profiles rows d) ;;
        match r with
        | fail pointsError =>
            console_error "Error updating user points:" (Store pointsError) ;;
            throw (Store pointsError)
        | data _ => recordTransaction env request
        end
  end.

(** The branch [action === 'rejected']. *)
Definition rejectRedemption (env : Env) (request : RedemptionRequest.t)
  : Op unit :=
  d <- get db ;;
  let (rows, r) :=
    update_rows (fault env RejectTransaction)
      (isRedeemedFor (RedemptionRequest.id request))
      (amend TxStatus.failed
         (GCashRedemption (RedemptionRequest.cash_amount request) "Rejected")
         (now env AtTxRejected))
      (transactions d) in
  set_db (with_transactions rows d) ;;
  match r with
  | fail transactionError =>
      console_error "Error marking transaction as failed:"
        (Store transactionError) ;;
      throw (Store transactionError)
  | data [] => console_warn "No transaction was updated during rejection."
  | data _ => ret tt
  end.

(** The writes of the handler, in source order: the request row first,
    then the branch of the action. *)
Definition transition (env : Env) (request : RedemptionRequest.t)
  (action : Action.t) : Op unit :=
  d <- get db ;;
  let (rows, r) :=
    update_rows (fault env UpdateRequest) (hasRequestId request)
      (updateData env action) (redemption_requests d) in
  set_db (with_requests rows d) ;;
  match r with
  | fail e => throw (Store e)
  | data _ =>
      match action with
      | Action.completed => completeRedemption env request
      | Action.rejected => rejectRedemption env request
      | Action.pending => ret tt
      end
  end.

(** [{ ...req, status: action, processed_at: new Date().toISOString() }] *)
Definition localUpdate (env : Env) (action : Action.t)
  (req : RedemptionRequest.t) : RedemptionRequest.t :=
  RedemptionRequest.mk (RedemptionRequest.id req)
    (RedemptionRequest.user_id req) (RedemptionRequest.points_redeemed req)
    (RedemptionRequest.cash_amount req) (Action.status action)
    (Some (now env AtLocalState)) (RedemptionRequest.created_at req)
    (RedemptionRequest.updated_at req).

Definition actionName (action : Action.t) : string :=
  match action with
  | Action.pending => "pending"
  | Action.completed => "completed"
  | Action.rejected => "rejected"
  end.

(** The body of the [try] block. *)
Definition handleRequestAction_try (env : Env) (request : RedemptionRequest.t)
  (action : Action.t) : Op unit :=
  transition env request action ;;
  setRedemptionRequests
    (map (fun req => if hasRequestId request req
                     then localUpdate env action req else req)) ;;
  alert (AlertSuccess action) ;;
  setModalVisible false ;;
  promise_all (fetchRedemptionRequests env) (fetchTransactionHistory env).

Definition handleRequestAction (env : Env) (request : RedemptionRequest.t)
  (action : Action.t) (w : World) : World :=
  if processingAction (ui w) then w
  else
    fst ((setProcessingAction true ;;
          try_catch (handleRequestAction_try env request action)
            (fun e =>
               console_error ("Error " ++ actionName action ++ "ing request:")
                 e ;;
               alert (AlertFailed action e)) ;;
          setProcessingAction false) w).

(** *** What the screen offers *)

(** [redemptionRequests.filter(req => req.status === 'pending')]: the list
    the requests are picked from. *)
Definition pendingRequests (u : Ui) : list RedemptionRequest.t :=
  filter (fun req =>
            ReqStatus.eqb (RedemptionRequest.status req) ReqStatus.pending)
    (redemptionRequests u).

(** [onPress] of a list item: [setSelectedRequest(item); setModalVisible(true)]. *)
Definition selectItem (item : RedemptionRequest.t) (u : Ui) : Ui :=
  mkUi (redemptionRequests u) (transactionHistory u) (Some item) true
    (processingAction u).

(** The actions the modal offers: it shows when [modalVisible]; the
    Complete and Reject buttons are rendered for a selected request with
    [status === 'pending'] only, and are disabled while an action is being
    processed. *)
Definition offeredActions (u : Ui) : list Action.t :=
  match selectedRequest u with
  | Some r =>
      if modalVisible u
         && ReqStatus.eqb (RedemptionRequest.status r) ReqStatus.pending
         && negb (processingAction u)
      then [Action.completed; Action.rejected]
      else []
  | None => []
  end.

(** *** Readings of a state *)

(** The transactions of a request: those with its id as reference and
    type redeemed. *)
Definition ledgerOf (reference : string) (d : Db) : list Transaction.t :=
  filter (isRedeemedFor reference) (transactions d).

Definition profilesOf (user : string) (d : Db) : list UserProfile.t :=
  filter (fun p => UserProfile.user_id p =? user) (user_profiles d).

Definition requestsOf (i : string) (d : Db) : list RedemptionRequest.t :=
  filter (fun r => RedemptionRequest.id r =? i) (redemption_requests d).

(** At most one redeemed transaction per reference. *)
Definition ledger_unique (d : Db) : Prop :=
  forall reference, List.length (ledgerOf reference d) <= 1.

Definition run {A} (c : Op A) (w : World) : World * Result A := c w.


(** The failure, if any, of the write that step 5 of a completion makes in
    the state [w]: of the update when the lookup finds the transaction, of
    the insert when it finds none. *)
Definition ledgerWriteFault (env : Env) (request : RedemptionRequest.t)
  (w : World) : option string :=
  match select_single (fault env CheckTransaction)
          (isRedeemedFor (RedemptionRequest.id request))
          (transactions (db w)) with
  | data _ => fault env UpdateTransaction
  | fail PGRST116 => fault env InsertTransaction
  | fail (Failure _) => None
  end.

(** The update that step 5 makes to the transaction it found. *)
Definition completedAt (env : Env) (request : RedemptionRequest.t)
  (found : Transaction.t) (t : Transaction.t) : Transaction.t :=
  if Transaction.id t =? Transaction.id found
  then amend TxStatus.completed
         (GCashRedemption (RedemptionRequest.cash_amount request) "Completed")
         (now env AtTxUpdate) t
  else t.

(** The update that a rejection makes to the transactions of the request. *)
Definition failedAt (env : Env) (request : RedemptionRequest.t)
  (t : Transaction.t) : Transaction.t :=
  if isRedeemedFor (RedemptionRequest.id request) t
  then amend TxStatus.failed
         (GCashRedemption (RedemptionRequest.cash_amount request) "Rejected")
         (now env AtTxRejected) t
  else t.

(** The update that step 4 makes to the profiles of the user, from the
    profile [current] read in step 1. *)
Definition debit (env : Env) (request : RedemptionRequest.t)
  (current : UserProfile.t) (p : UserProfile.t) : UserProfile.t :=
  if hasUserId request p
  then withPoints
         (number_sub (UserProfile.available_points current)
            (RedemptionRequest.points_redeemed request))
         (number_add (UserProfile.redeemed_points current)
            (RedemptionRequest.points_redeemed request))
         (now env AtPoints) p
  else p.

(** The numbers of a request and a profile for which the arithmetic of
    an approval is exact: none is negative, and neither the balance nor
    the redeemed points after it exceed [Number.MAX_SAFE_INTEGER]. *)
Definition withinSafeIntegers (request : RedemptionRequest.t)
  (p : UserProfile.t) : Prop :=
  (0 <= RedemptionRequest.points_redeemed request
   /\ 0 <= UserProfile.redeemed_points p
   /\ UserProfile.available_points p <= MAX_SAFE_INTEGER
   /\ UserProfile.redeemed_points p
      + RedemptionRequest.points_redeemed request <= MAX_SAFE_INTEGER)%Z.

(** *** The specification's expectations that the handler does not meet *)


(** What the specification expects when the balance was changed and the
    write to the ledger failed: no success is reported. *)
Definition partial_commit_is_no_success (env : Env)
  (request : RedemptionRequest.t) (w : World) : Prop :=
  let w' := handleRequestAction env request Action.completed w in
  user_profiles (db w') <> user_profiles (db w) ->
  ledgerWriteFault env request w <> None ->
  ~ In (AlertSuccess Action.completed) (alerts w').

(** *** The scenarios of the specification, as data *)

Module Sample.
Definition request (st : ReqStatus.t) : RedemptionRequest.t :=
    RedemptionRequest.mk "r1" "u1" 500 25000 st None 1 1.

Definition profile (available : Z) : UserProfile.t :=
    UserProfile.mk "u1" 1000 available 0 1.

Definition entry (st : TxStatus.t) : Transaction.t :=
    Transaction.mk "t0" "u1" redeemed (-500) (Text "GCash redemption")
      st (Some "r1") 1 1.

Definition world (available : Z) (st : ReqStatus.t)
    (ledger : list Transaction.t) : World :=
    mkWorld
      (mkDb ["a1"] [request st] [profile available] ledger)
      (mkUi [request st] ledger (Some (request st)) true false)
      [] [].

  (** An administrator's session in which no call fails. *)
Definition env : Env :=
    mkEnv (Some "a1") (fun _ => 7) "t1" (fun _ => None).

  (** The same session, with the insert into [transactions] failing. *)
Definition env_insert_fails : Env :=
    mkEnv (Some "a1") (fun _ => 7) "t1"
      (fun c => match c with
                | InsertTransaction => Some "insert failed"
                | _ => None
                end).

  (** A session of a user who has no row in [admins]. *)
Definition env_not_admin : Env :=
    mkEnv (Some "u9") (fun _ => 7) "t1" (fun _ => None).

Definition notice : Raw.t :=
    Raw.mk "n1" "Maintenance" "Tonight" "high" "2025-01-01".
End Sample.

(* ===================================================================== *)
(** ** Part 2b: the rest of the home screen *)
(* ===================================================================== *)

(** [notifications.filter(n => !n.read).length]: the number on the badge;
    the badge and 'Mark all read' show when it is positive. *)
Definition unreadCount (l : list Notification.t) : nat :=
  List.length (filter (fun n => negb (Notification.read n)) l).

(** The literal of a severity, as [item.type] is passed on. *)
Definition typeName (t : NotificationType) : string :=
  match t with
  | info => "info"
  | success => "success"
  | warning => "warning"
  | error => "error"
  end.

Module Icon.
Record t := mk { name : string; color : string }.
End Icon.

Definition getNotificationIcon (type : string) : Icon.t :=
  if type =? "warning" then Icon.mk "warning" "#FF9500"
  else if type =? "error" then Icon.mk "alert-circle" "#FF3B30"
  else if type =? "success" then Icon.mk "checkmark-circle" "#34C759"
  else Icon.mk "information-circle" "#007AFF".

(** A row of [system_notifications] with its [active] column. *)
Module StoredNotification.
Record t := mk { row : Raw.t; active : bool }.
End StoredNotification.

(** The home screen: the table it reads, its list, what it has shown. *)
Record Home := mkHome {
  system_notifications : list StoredNotification.t;
  notifications : list Notification.t;
  home_alerts : list Alert;
  home_console : list ConsoleEntry
}.


(** The button pressed in the confirmation dialog. *)
Inductive Choice := Cancel | Delete.

(** [deleteNotification]: the dialog, then, on 'Delete', the row is set
    inactive in the store and, if that went through, the entry leaves the
    local list. *)
Definition deleteNotification (choice : Choice) (failure : option string)
  (notificationId : string) (h : Home) : Home :=
  let asked :=
    (home_alerts h
     ++ [AlertText "Delete Notification"
           "Are you sure you want to delete this notification?"])%list in
  match choice with
  | Cancel =>
      mkHome (system_notifications h) (notifications h) asked (home_console h)
  | Delete =>
      let (rows, r) :=
        update_rows failure
          (fun s => Raw.id (StoredNotification.row s) =? notificationId)
          (fun s => StoredNotification.mk (StoredNotification.row s) false)
          (system_notifications h) in
      match r with
      | fail e =>
          mkHome rows (notifications h)
            (asked ++ [AlertText "Error" "Failed to delete notification"])
            (home_console h
             ++ [ConsoleError "Error deleting notification:" (Store e)])
      | data _ =>
          mkHome rows
            (filter (fun notif =>
                       negb (Notification.id notif =? notificationId))
               (notifications h))
            (asked
             ++ [AlertText "Success" "Notification deleted successfully"])
            (home_console h)
      end
  end.

(** How many entries of the list carry an id. *)
Definition countId (i : string) (l : list Notification.t) : nat :=
  List.length (filter (fun n => Notification.id n =? i) l).

(** The ids of the entries, in order. *)
Definition ids (l : list Notification.t) : list string :=
  map Notification.id l.

(** What a run may not change in a profile: whose it is, its total, and
    the sum of its available and redeemed points. *)
Definition holdings (p : UserProfile.t) : string * Z * Z :=
  (UserProfile.user_id p, UserProfile.total_points p,
   (UserProfile.available_points p + UserProfile.redeemed_points p)%Z).

(** What a run may not change in a transaction: everything but its
    status, description and [updated_at]. *)
Definition ledgerCore (t : Transaction.t)
  : string * string * TransactionType * Z * option string * Timestamp :=
  (Transaction.id t, Transaction.user_id t, Transaction.type t,
   Transaction.amount t, Transaction.reference_id t,
   Transaction.created_at t).

(** The order of a list shown latest first. *)
Definition laterFirst {A} (key : A -> nat) (a b : A) : Prop :=
  key b <= key a.

(* ===================================================================== *)
(** ** Part 2c: who is let in (AuthContext, AppNavigator) *)
(* ===================================================================== *)

(** The state of the auth context.  An admin row is kept by its id, as
    the rows of [admins] are in [Db]. *)
Record AuthState := mkAuth {
  admin : option string;
  loading : bool
}.

(** [fetchAdminProfile], given the failure (if any) of its query
    [.from('admins').select('*').eq('id', userId)]: an error is thrown
    into the [catch], which only logs; no row found returns early; else
    the first row found becomes the admin.  [finally] ends the loading. *)
Definition fetchAdminProfile (failure : option string) (userId : string)
  (table : list string) (a : AuthState) : AuthState :=
  match failure with
  | Some _ => mkAuth (admin a) false
  | None =>
      match filter (fun row => row =? userId) table with
      | [] => mkAuth (admin a) false
      | first :: _ => mkAuth (Some first) false
      end
  end.

(** The listener of [onAuthStateChange], on the user of the session. *)
Definition onAuthStateChange (session : option string)
  (failure : option string) (table : list string) (a : AuthState)
  : AuthState :=
  match session with
  | Some user => fetchAdminProfile failure user table a
  | None => mkAuth None false
  end.

(** What [AppNavigator] renders. *)
Inductive Screen := Nothing | Main | Login.

Definition AppNavigator (a : AuthState) : Screen :=
  if loading a then Nothing
  else match admin a with
       | Some _ => Main
       | None => Login
       end.

(* ===================================================================== *)
(** ** Part 2d: the analytics service (getPeakHour, getBusiestDay) *)
(* ===================================================================== *)

(** A fetched bottle, by the two readings the service makes of its
    [collected_at]: [getHours()] and [getDay()]. *)
Module Bottle.
Record t := mk { hour : nat; day : nat }.
End Bottle.

(** [counts[key] = (counts[key] || 0) + 1] on an object with integer keys,
    kept as [Object.entries] lists it: by ascending key. *)
Fixpoint increment (key : nat) (counts : list (nat * nat))
  : list (nat * nat) :=
  match counts with
  | [] => [(key, 1)]
  | (k, c) :: rest =>
      if (key =? k)%nat then (k, c + 1) :: rest
      else if (key <? k)%nat then (key, 1) :: counts
      else (k, c) :: increment key rest
  end.

(** The [forEach] that groups the rows. *)
Definition tally (keys : list nat) : list (nat * nat) :=
  fold_left (fun counts key => increment key counts) keys [].

(** The [forEach] over the entries, from [peak = 0, maxCount = 0]:
    [if (count > maxCount) { maxCount = count; peak = parseInt(key) }]. *)
Definition mostFrequent (counts : list (nat * nat)) : nat * nat :=
  fold_left (fun best entry =>
               if (snd best <? snd entry)%nat then entry else best)
    counts (0, 0).

Definition decimal (n : nat) : string :=
  NilZero.string_of_uint (Nat.to_uint n).

Definition period (hour : nat) : string :=
  if (12 <=? hour)%nat then "PM" else "AM".

Definition displayHour (hour : nat) : nat :=
  if (12 <? hour)%nat then hour - 12
  else if (hour =? 0)%nat then 12 else hour.

Definition formatHour (hour : nat) : string :=
  decimal (displayHour hour) ++ ":00 " ++ period hour.

(** [getPeakHour], given the answer of its query. *)
Definition getPeakHour (answer : Response (option (list Bottle.t)))
  : string :=
  match answer with
  | fail _ => "No data available"
  | data None | data (Some []) => "No bottles today"
  | data (Some rows) =>
      let peakHour := fst (mostFrequent (tally (map Bottle.hour rows))) in
      let endHour := if (peakHour =? 23)%nat then 0 else peakHour + 1 in
      formatHour peakHour ++ " - " ++ formatHour endHour
  end.

Definition dayNames : list string :=
  ["Sunday"; "Monday"; "Tuesday"; "Wednesday"; "Thursday"; "Friday";
   "Saturday"].

(** [getBusiestDay], given the answer of its query; [None] is the
    [undefined] of an index outside [dayNames]. *)
Definition getBusiestDay (answer : Response (option (list Bottle.t)))
  : option string :=
  match answer with
  | fail _ | data None | data (Some []) => Some "No data"
  | data (Some rows) =>
      nth_error dayNames (fst (mostFrequent (tally (map Bottle.day rows))))
  end.

(** How often a key occurs among the readings. *)
Definition occurrences (key : nat) (keys : list nat) : nat :=
  count_occ Nat.eq_dec keys key.

(** The count that the entries hold for a key. *)
Definition countIn (key : nat) (counts : list (nat * nat)) : nat :=
  match find (fun e => (fst e =? key)%nat) counts with
  | Some e => snd e
  | None => 0
  end.

(** The entries are listed by ascending key. *)
Definition keysAscend (counts : list (nat * nat)) : Prop :=
  StronglySorted lt (map fst counts).

(** The scan of [mostFrequent], from any start. *)
Definition scanFrom (best : nat * nat) (counts : list (nat * nat))
  : nat * nat :=
  fold_left (fun best entry =>
               if (snd best <? snd entry)%nat then entry else best)
    counts best.

(* ===================================================================== *)
(** ** Part 2e: the dashboard counts (ProfileScreen) *)
(* ===================================================================== *)

Module DashboardStats.
Record t := mk {
  totalUsers : nat;
  pendingRequests : nat;
  completedRequests : nat
}.
End DashboardStats.

Record Dashboard := mkDashboard {
  stats : DashboardStats.t;
  stats_loading : bool;
  dashboard_alerts : list Alert;
  dashboard_console : list ConsoleEntry
}.

(** [.select('*', { count: 'exact', head: true }).eq('status', s)] on
    [redemption_requests]. *)
Definition statusCount (s : ReqStatus.t) (rows : list RedemptionRequest.t)
  : nat :=
  List.length (filter (fun r => ReqStatus.eqb (RedemptionRequest.status r) s)
                 rows).

(** The three count queries of [fetchStats], in order; the first error is
    thrown. *)
Definition countQueries (usersError pendingError completedError : option string)
  (d : Db) : Response DashboardStats.t :=
  match usersError with
  | Some m => fail (Failure m)
  | None =>
      match pendingError with
      | Some m => fail (Failure m)
      | None =>
          match completedError with
          | Some m => fail (Failure m)
          | None =>
              data (DashboardStats.mk
                      (List.length (user_profiles d))
                      (statusCount ReqStatus.pending (redemption_requests d))
                      (statusCount ReqStatus.completed
                         (redemption_requests d)))
          end
      end
  end.

(** [fetchStats]: the counts are set together, or an error is logged and
    shown; [finally] ends the loading. *)
Definition fetchStats (usersError pendingError completedError : option string)
  (d : Db) (p : Dashboard) : Dashboard :=
  match countQueries usersError pendingError completedError d with
  | data s => mkDashboard s false (dashboard_alerts p) (dashboard_console p)
  | fail e =>
      mkDashboard (stats p) false
        (dashboard_alerts p ++ [AlertText "Error" "Failed to load statistics"])
        (dashboard_console p ++ [ConsoleError "Error fetching stats:" (Store e)])
  end.

(** *** Tactics for running the handler *)

Ltac unfold_ops :=
  unfold run, transition, completeRedemption, rejectRedemption,
    recordTransaction, bind, ret, throw, get, set_db,
    console_error, console_warn, alert, modify, update_rows, insert_row in *.

Ltac unfold_screen :=
  unfold handleRequestAction_try, promise_all, fetchRedemptionRequests,
    fetchTransactionHistory, checkAdminStatus, try_catch, select_latest,
    setRedemptionRequests, setTransactionHistory, setModalVisible,
    setProcessingAction, set_ui, alert, console_error, modify in *.

Ltac simp_world :=
  cbn [negb db ui alerts console fst snd admins redemption_requests
       user_profiles transactions with_requests with_profiles
       with_transactions] in *.

(** One step of the run: decide the test that the code is waiting on. *)
Ltac step :=
  match goal with
  | |- context [match fault ?e ?c with _ => _ end] =>
      destruct (fault e c) eqn:?
  | |- context [match select_single ?f ?p ?l with _ => _ end] =>
      destruct (select_single f p l) as [?|[|?]] eqn:?
  | |- context [if (?a <? ?b)%Z then _ else _] =>
      destruct (a <? b)%Z eqn:?
  | |- context [match map ?f ?l with _ => _ end] =>
      destruct (map f l) eqn:?
  | |- context [match auth_user ?e with _ => _ end] =>
      destruct (auth_user e) eqn:?
  end; simp_world.

Ltac run_all := unfold_ops; simp_world; repeat step.

(* --------------------------------------------------------------------- *)
(** ** Part 3: facts about the feed *)

Lemma getNotificationType_critical : getNotificationType "critical" = error.
Proof. reflexivity. Qed.

Lemma getNotificationType_high : getNotificationType "high" = warning.
Proof. reflexivity. Qed.

Lemma getNotificationType_other (p : string) :
  p <> "critical" -> p <> "high" -> getNotificationType p = info.
Proof.
  intros Hc Hh. unfold getNotificationType.
  apply String.eqb_neq in Hc. apply String.eqb_neq in Hh.
  now rewrite Hc, Hh.
Qed.

Lemma getNotificationType_not_success (p : string) :
  getNotificationType p <> success.
Proof.
  unfold getNotificationType.
  destruct (p =? "critical"); [discriminate|].
  destruct (p =? "high"); discriminate.
Qed.

Lemma update_length (r : Raw.t) (prev : list Notification.t) :
  List.length (onChange (UPDATE r) prev) = List.length prev.
Proof. simpl. apply length_map. Qed.

Lemma update_nth (r : Raw.t) (prev : list Notification.t) (i : nat)
  (notif : Notification.t) :
  nth_error prev i = Some notif ->
  nth_error (onChange (UPDATE r) prev) i =
    Some (if Notification.id notif =? Raw.id r
          then overwrite r notif else notif).
Proof.
  intros H. simpl. rewrite nth_error_map, H. reflexivity.
Qed.

Lemma update_absent (r : Raw.t) (prev : list Notification.t) :
  (forall n, In n prev -> Notification.id n <> Raw.id r) ->
  onChange (UPDATE r) prev = prev.
Proof.
  intros H. simpl. induction prev as [|n l IH]; simpl; [reflexivity|].
  assert (Hn : (Notification.id n =? Raw.id r) = false)
    by (apply String.eqb_neq, H; now left).
  rewrite Hn. f_equal. apply IH. intros m Hm. apply H. now right.
Qed.

Lemma markRead_nohead (i : string) (n : Notification.t)
  (l : list Notification.t) :
  Notification.id n = i ->
  markNotificationAsRead i (n :: l) = asRead n :: markNotificationAsRead i l.
Proof.
  intros <-. unfold markNotificationAsRead. simpl.
  now rewrite String.eqb_refl.
Qed.

(** C8: after inserted(A), updated(A), deleted(A) no entry carries A's id,
    whatever the sequence was before; after inserted(A), markRead(A),
    updated(A) the entry of A heads the sequence with read = true and the
    updated title, message and severity; an update keeps the length of the
    sequence and rewrites an entry in its own position, keeping its id,
    creation time and read flag. *)
Theorem merge_insert_update_delete_markRead
  (a : Raw.t) (t' m' p' : string) (prev : list Notification.t) :
  let a' := revised a t' m' p' in
  ~ hasId (Raw.id a)
      (onChange (DELETE a) (onChange (UPDATE a') (onChange (INSERT a) prev)))
  /\ (exists rest,
        onChange (UPDATE a')
          (markNotificationAsRead (Raw.id a) (onChange (INSERT a) prev))
        = Notification.mk (Raw.id a) t' m' (getNotificationType p')
            (Raw.created_at a) true :: rest
        /\ List.length rest = List.length prev)
  /\ (forall (l : list Notification.t),
        List.length (onChange (UPDATE a') l) = List.length l
        /\ forall i n, nth_error l i = Some n ->
             exists n', nth_error (onChange (UPDATE a') l) i = Some n'
               /\ Notification.id n' = Notification.id n
               /\ Notification.read n' = Notification.read n
               /\ Notification.created_at n' = Notification.created_at n
               /\ (Notification.id n = Raw.id a ->
                     Notification.title n' = t'
                     /\ Notification.message n' = m'
                     /\ Notification.type n' = getNotificationType p')
               /\ (Notification.id n <> Raw.id a -> n' = n)).
Proof.
  intros a'. split; [|split].
  - intros (n & Hin & Hid).
    cbn [onChange] in Hin. apply filter_In in Hin as [_ Hneq].
    rewrite Hid, String.eqb_refl in Hneq. discriminate.
  - cbn [onChange]. rewrite markRead_nohead by reflexivity.
    cbn [map asRead newNotification Notification.id].
    unfold a' at 1. cbn [revised Raw.id]. rewrite String.eqb_refl.
    eexists. split; [reflexivity|].
    unfold markNotificationAsRead. now rewrite !length_map.
  - intros l. split; [apply update_length|].
    intros i n Hn. rewrite (update_nth _ _ _ _ Hn).
    eexists. split; [reflexivity|].
    subst a'. cbn [revised Raw.id Raw.title Raw.message Raw.priority].
    destruct (Notification.id n =? Raw.id a) eqn:E.
    + apply String.eqb_eq in E.
      split; [reflexivity|]. split; [reflexivity|]. split; [reflexivity|].
      split; [intros _; now repeat split | intros Hne; contradiction].
    + apply String.eqb_neq in E.
      split; [reflexivity|]. split; [reflexivity|]. split; [reflexivity|].
      split; [intros He; contradiction | reflexivity].
Qed.

Lemma onChange_keeps_types (payload : Payload) (prev : list Notification.t) :
  Forall (fun n => Notification.type n <> success) prev ->
  Forall (fun n => Notification.type n <> success) (onChange payload prev).
Proof.
  intros H. destruct payload as [new|new|old]; cbn [onChange].
  - constructor; [apply getNotificationType_not_success | exact H].
  - apply Forall_map. eapply Forall_impl; [|exact H].
    intros n Hn. cbv beta.
    destruct (Notification.id n =? Raw.id new);
      [apply getNotificationType_not_success | exact Hn].
  - apply Forall_forall. intros n Hin. apply filter_In in Hin as [Hin _].
    revert n Hin. now apply Forall_forall.
Qed.

(** C8 witness: the merge of the sample notice into an empty feed. *)
Lemma merge_insert_update_delete_markRead_witness :
  ~ hasId "n1"
      (onChange (DELETE Sample.notice)
         (onChange (UPDATE (revised Sample.notice "Moved" "Tomorrow" "critical"))
            (onChange (INSERT Sample.notice) []))).
Proof.
  exact (proj1 (merge_insert_update_delete_markRead Sample.notice
                  "Moved" "Tomorrow" "critical" [])).
Defined.

(** C9 fails: an update for an id that the feed does not hold leaves the
    empty feed empty. *)
Lemma update_of_absent_does_not_insert :
  ~ update_of_absent_inserts Sample.notice [].
Proof.
  intros H. destruct H as (n & Hin & _).
  - intros n [].
  - exact Hin.
Qed.

(** C9, amended: an updated(record) event whose id is absent from the
    sequence changes nothing; the record is not added. *)
Theorem update_of_absent_is_noop (r : Raw.t) (prev : list Notification.t) :
  (forall n, In n prev -> Notification.id n <> Raw.id r) ->
  onChange (UPDATE r) prev = prev
  /\ ~ hasId (Raw.id r) (onChange (UPDATE r) prev).
Proof.
  intros H. rewrite (update_absent r prev H). split; [reflexivity|].
  intros (n & Hin & Hid). exact (H n Hin Hid).
Qed.

Lemma update_of_absent_is_noop_witness :
  let other := newNotification (Raw.mk "n2" "Hello" "World" "low" "2025-01-02") in
  onChange (UPDATE Sample.notice) [other] = [other]
  /\ ~ hasId "n1" (onChange (UPDATE Sample.notice) [other]).
Proof.
  intros other. apply (update_of_absent_is_noop Sample.notice [other]).
  intros n [<-|[]]. cbn. discriminate.
Defined.

(** C10: the severity mapping is total with three values: 'critical' gives
    error, 'high' gives warning, every other priority gives info, and
    success is never its value; the entry an INSERT adds and the entries
    an UPDATE rewrites carry the mapped severity, so no event brings a
    success entry into a feed that had none, nor does a fetch. *)
Theorem severity_mapping_three_valued (p : string) :
  (p = "critical" -> getNotificationType p = error)
  /\ (p = "high" -> getNotificationType p = warning)
  /\ (p <> "critical" -> p <> "high" -> getNotificationType p = info)
  /\ getNotificationType p <> success
  /\ (forall (r : Raw.t) (prev : list Notification.t),
        Raw.priority r = p ->
        (exists rest, onChange (INSERT r) prev
                      = Notification.mk (Raw.id r) (Raw.title r)
                          (Raw.message r) (getNotificationType p)
                          (Raw.created_at r) false :: rest)
        /\ (forall n, In n prev -> Notification.id n = Raw.id r ->
              In (Notification.mk (Raw.id r) (Raw.title r) (Raw.message r)
                    (getNotificationType p) (Notification.created_at n)
                    (Notification.read n))
                 (onChange (UPDATE r) prev)))
  /\ (forall (payload : Payload) (prev : list Notification.t),
        Forall (fun n => Notification.type n <> success) prev ->
        Forall (fun n => Notification.type n <> success)
          (onChange payload prev))
  /\ (forall rows : list Raw.t,
        Forall (fun n => Notification.type n <> success)
          (fetchedNotifications rows)).
Proof.
  split; [intros ->; reflexivity|].
  split; [intros ->; reflexivity|].
  split; [apply getNotificationType_other|].
  split; [apply getNotificationType_not_success|].
  split; [|split].
  - intros r prev <-. split.
    + eexists. reflexivity.
    + intros n Hin Hid. cbn [onChange]. apply in_map_iff.
      exists n. split; [|exact Hin].
      apply String.eqb_eq in Hid. rewrite Hid.
      apply String.eqb_eq in Hid. unfold overwrite. now rewrite Hid.
  - apply onChange_keeps_types.
  - intros rows. unfold fetchedNotifications. apply Forall_map.
    apply Forall_forall. intros r _. apply getNotificationType_not_success.
Qed.

Lemma severity_mapping_three_valued_witness :
  getNotificationType "critical" = error
  /\ getNotificationType "high" = warning
  /\ getNotificationType "low" = info.
Proof.
  split; [|split].
  - exact (proj1 (severity_mapping_three_valued "critical") eq_refl).
  - exact (proj1 (proj2 (severity_mapping_three_valued "high")) eq_refl).
  - apply (proj1 (proj2 (proj2 (severity_mapping_three_valued "low"))));
      discriminate.
Defined.

(* ===================================================================== *)
(** ** Part 4: facts about handleRequestAction *)
(* ===================================================================== *)

(** *** Lists *)

Lemma filter_map_stable {A} (P : A -> bool) (g : A -> A) (l : list A) :
  (forall x, P (g x) = P x) -> filter P (map g l) = map g (filter P l).
Proof.
  intros H. induction l as [|x l IH]; simpl; [reflexivity|].
  rewrite H. destruct (P x); simpl; now rewrite IH.
Qed.

Lemma filter_rewrite_stable {A} (Q P : A -> bool) (f : A -> A) (l : list A) :
  (forall x, Q (f x) = Q x) ->
  filter Q (map (fun x => if P x then f x else x) l)
  = map (fun x => if P x then f x else x) (filter Q l).
Proof.
  intros H. apply filter_map_stable. intros x. now destruct (P x).
Qed.


Lemma isRedeemedFor_amend reference st d at_ t :
  isRedeemedFor reference (amend st d at_ t) = isRedeemedFor reference t.
Proof. reflexivity. Qed.

(** *** Running the handler *)

(** The writes of the handler read and change the store only: the
    screen state and the alerts pass through, the console grows. *)
Lemma transition_store_only env request action d u al c u' al' c' :
  let x := run (transition env request action) (mkWorld d u al c) in
  let y := run (transition env request action) (mkWorld d u' al' c') in
  db (fst x) = db (fst y) /\ snd x = snd y
  /\ ui (fst x) = u /\ alerts (fst x) = al.
Proof.
  destruct action; run_all; repeat split; reflexivity.
Qed.

(** The handler leaves in the store what its writes left there: the alerts
    and the two fetches that follow only read it. *)
Lemma handler_db env request action w :
  processingAction (ui w) = false ->
  db (handleRequestAction env request action w)
  = db (fst (run (transition env request action) w)).
Proof.
  intros Hp. unfold handleRequestAction. rewrite Hp.
  destruct w as [d u al c].
  unfold_screen. unfold run, bind, ret, throw, get. simp_world.
  match goal with |- context [transition env request action ?w1] =>
    destruct (transition_store_only env request action d u al c
                (ui w1) (alerts w1) (console w1)) as (Hd & _);
    simp_world; unfold run in Hd; rewrite Hd; clear Hd;
    destruct (transition env request action w1) as [w2 [[]|e]]
  end; simp_world; repeat step; reflexivity.
Qed.

(** What the handler shows: after the writes went through, the success
    alert (and then whatever the two fetches show); after a throw, the
    failure alert with the error, and the list of requests as it was. *)
Lemma handler_alerts env request action w :
  processingAction (ui w) = false ->
  match snd (run (transition env request action) w) with
  | Ok _ =>
      exists rest,
        alerts (handleRequestAction env request action w)
        = (alerts w ++ AlertSuccess action :: rest)%list
  | Throw e =>
      alerts (handleRequestAction env request action w)
      = (alerts w ++ [AlertFailed action e])%list
      /\ redemptionRequests (ui (handleRequestAction env request action w))
         = redemptionRequests (ui w)
  end.
Proof.
  intros Hp. unfold handleRequestAction. rewrite Hp.
  destruct w as [d u al c].
  unfold_screen. unfold run, bind, ret, throw, get. simp_world.
  match goal with |- context [transition env request action ?w1] =>
    destruct (transition_store_only env request action d u al c
                (ui w1) (alerts w1) (console w1)) as (_ & Hr & _);
    destruct (transition_store_only env request action d
                (ui w1) (alerts w1) (console w1) u al c) as (_ & _ & Hu & Ha);
    simp_world; unfold run in Hr, Hu, Ha; rewrite Hr; clear Hr;
    destruct (transition env request action w1) as [w2 [[]|e]]
  end; simp_world; subst.
  - repeat step; rewrite <- ?app_assoc; eexists; reflexivity.
  - split; [reflexivity | cbn; now rewrite Hu].
Qed.

Lemma handler_busy env request action w :
  processingAction (ui w) = true ->
  handleRequestAction env request action w = w.
Proof. intros Hp. unfold handleRequestAction. now rewrite Hp. Qed.

(** The screen state after a run that started idle. *)
Lemma handler_ui env request action w :
  processingAction (ui w) = false ->
  let w' := handleRequestAction env request action w in
  processingAction (ui w') = false
  /\ selectedRequest (ui w') = selectedRequest (ui w)
  /\ match snd (run (transition env request action) w) with
     | Ok _ => modalVisible (ui w') = false
     | Throw _ =>
         modalVisible (ui w') = modalVisible (ui w)
         /\ redemptionRequests (ui w') = redemptionRequests (ui w)
         /\ transactionHistory (ui w') = transactionHistory (ui w)
     end.
Proof.
  intros Hp. unfold handleRequestAction. rewrite Hp.
  destruct w as [d u al c].
  unfold_screen. unfold run, bind, ret, throw, get. simp_world.
  match goal with |- context [transition env request action ?w1] =>
    destruct (transition_store_only env request action d u al c
                (ui w1) (alerts w1) (console w1)) as (_ & Hr & _);
    destruct (transition_store_only env request action d
                (ui w1) (alerts w1) (console w1) u al c) as (_ & _ & Hu & _);
    simp_world; unfold run in Hr, Hu; rewrite Hr; clear Hr;
    destruct (transition env request action w1) as [w2 [[]|e]]
  end; simp_world; rewrite ?Hu; repeat step; cbn; auto.
Qed.

(** The request rows after the writes, whatever their outcome. *)
Lemma transition_requests_any env request action w :
  redemption_requests (db (fst (run (transition env request action) w)))
  = match fault env UpdateRequest with
    | Some _ => redemption_requests (db w)
    | None => map (fun r => if hasRequestId request r
                            then updateData env action r else r)
                (redemption_requests (db w))
    end.
Proof. destruct action; run_all; reflexivity. Qed.

(** *** Completion *)

Lemma select_single_data {A} fault_ (P : A -> bool) (l : list A) (x : A) :
  select_single fault_ P l = data x -> fault_ = None /\ filter P l = [x].
Proof.
  unfold select_single. destruct fault_; [discriminate|].
  destruct (filter P l) as [|y [|z l']]; try discriminate.
  intros [= ->]. now split.
Qed.

Lemma select_single_PGRST116 {A} fault_ (P : A -> bool) (l : list A) :
  select_single fault_ P l = fail PGRST116 ->
  fault_ = None /\ forall x, filter P l <> [x].
Proof.
  unfold select_single. destruct fault_; [discriminate|].
  destruct (filter P l) as [|y [|z l']]; try discriminate;
    intros _; split; try reflexivity; intros x; discriminate.
Qed.

(** What a completion does to the table of transactions: nothing, or the
    update of the transaction found, or the insert when none was found. *)
Lemma completion_transactions env request w :
  let w' := fst (run (transition env request Action.completed) w) in
  let found := select_single (fault env CheckTransaction)
                 (isRedeemedFor (RedemptionRequest.id request))
                 (transactions (db w)) in
  transactions (db w') = transactions (db w)
  \/ (exists t, found = data t
        /\ transactions (db w') = map (completedAt env request t)
                                    (transactions (db w)))
  \/ (found = fail PGRST116
      /\ transactions (db w')
         = (transactions (db w) ++ [newTransaction env request])%list).
Proof.
  run_all; auto.
  all: right; left; eexists; split; reflexivity.
Qed.

(** What a rejection does to the table of transactions: nothing, or the
    update of the redeemed transactions of the request. *)
Lemma rejection_transactions env request w :
  let w' := fst (run (transition env request Action.rejected) w) in
  let r := snd (run (transition env request Action.rejected) w) in
  (r = Ok tt ->
   transactions (db w') = map (failedAt env request) (transactions (db w)))
  /\ (transactions (db w') = transactions (db w)
      \/ transactions (db w') = map (failedAt env request) (transactions (db w))).
Proof.
  run_all; split; auto; discriminate.
Qed.

Lemma isRedeemedFor_completedAt env request found reference t :
  isRedeemedFor reference (completedAt env request found t)
  = isRedeemedFor reference t.
Proof. unfold completedAt. now destruct (_ =? _). Qed.

Lemma isRedeemedFor_failedAt env request reference t :
  isRedeemedFor reference (failedAt env request t)
  = isRedeemedFor reference t.
Proof. unfold failedAt. now destruct (isRedeemedFor _ t). Qed.

Lemma ledgerOf_map (g : Transaction.t -> Transaction.t) reference d d' :
  (forall x, isRedeemedFor reference (g x) = isRedeemedFor reference x) ->
  transactions d' = map g (transactions d) ->
  ledgerOf reference d' = map g (ledgerOf reference d).
Proof.
  intros Hg Ht. unfold ledgerOf. rewrite Ht. now apply filter_map_stable.
Qed.

Lemma ledgerOf_insert env request reference d d' :
  transactions d' = (transactions d ++ [newTransaction env request])%list ->
  ledgerOf reference d'
  = (ledgerOf reference d
     ++ if RedemptionRequest.id request =? reference
        then [newTransaction env request] else [])%list.
Proof.
  intros Ht. unfold ledgerOf. rewrite Ht, filter_app. reflexivity.
Qed.

(** *** Rejection *)


(** Every run of the writes keeps the ledger unique. *)
Lemma transition_keeps_unique env request action w :
  ledger_unique (db w) ->
  ledger_unique (db (fst (run (transition env request action) w))).
Proof.
  intros Hu reference. destruct action.
  - replace (ledgerOf reference _) with (ledgerOf reference (db w));
      [apply Hu|].
    unfold ledgerOf. f_equal. run_all; reflexivity.
  - destruct (completion_transactions env request w)
      as [H|[(t & _ & H)|(Hnone & H)]].
    + unfold ledgerOf. rewrite H. apply Hu.
    + rewrite (ledgerOf_map _ reference _ _
                 (isRedeemedFor_completedAt env request t reference) H).
      rewrite length_map. apply Hu.
    + rewrite (ledgerOf_insert env request reference _ _ H).
      destruct (RedemptionRequest.id request =? reference) eqn:E;
        [|rewrite app_nil_r; apply Hu].
      apply String.eqb_eq in E. subst reference.
      apply select_single_PGRST116 in Hnone as [_ Hnone].
      specialize (Hu (RedemptionRequest.id request)). unfold ledgerOf in *.
      destruct (filter _ (transactions (db w))) as [|x [|y l]];
        [reflexivity | now destruct (Hnone x) | cbn in Hu; lia].
  - destruct (rejection_transactions env request w) as [_ [H|H]].
    + unfold ledgerOf. rewrite H. apply Hu.
    + rewrite (ledgerOf_map _ reference _ _
                 (isRedeemedFor_failedAt env request reference) H).
      rewrite length_map. apply Hu.
Qed.

Lemma handler_keeps_unique env request action w :
  ledger_unique (db w) ->
  ledger_unique (db (handleRequestAction env request action w)).
Proof.
  intros Hu. destruct (processingAction (ui w)) eqn:Hp.
  - now rewrite handler_busy.
  - rewrite handler_db by exact Hp. now apply transition_keeps_unique.
Qed.

(** A completion that goes through: what it read and what it wrote. *)
Lemma completion_ok env request w w' :
  run (transition env request Action.completed) w = (w', Ok tt) ->
  exists current,
    select_single (fault env SelectProfile) (hasUserId request)
      (user_profiles (db w)) = data current
    /\ (RedemptionRequest.points_redeemed request
        <= UserProfile.available_points current)%Z
    /\ fault env UpdateRequest = None
    /\ fault env UpdatePoints = None
    /\ user_profiles (db w')
       = map (debit env request current) (user_profiles (db w))
    /\ redemption_requests (db w')
       = map (fun r => if hasRequestId request r
                       then updateData env Action.completed r else r)
           (redemption_requests (db w))
    /\ transactions (db w')
       = match select_single (fault env CheckTransaction)
                 (isRedeemedFor (RedemptionRequest.id request))
                 (transactions (db w)) with
         | data found =>
             match fault env UpdateTransaction with
             | None => map (completedAt env request found) (transactions (db w))
             | Some _ => transactions (db w)
             end
         | fail _ =>
             match fault env InsertTransaction with
             | None => (transactions (db w) ++ [newTransaction env request])%list
             | Some _ => transactions (db w)
             end
         end.
Proof.
  run_all; intros H; try discriminate; injection H as <-; simp_world;
    eexists; (split; [reflexivity|]); (split; [apply Z.ltb_ge; eassumption|]);
    repeat split; reflexivity.
Qed.

Lemma hasUserId_debit env request current p :
  hasUserId request (debit env request current p) = hasUserId request p.
Proof. unfold debit. now destruct (hasUserId request p) eqn:E. Qed.

(** *** Exact arithmetic and the record of a completion *)

Lemma roundToDouble_exact (n : Z) :
  (Z.abs n <= 9007199254740992)%Z -> roundToDouble n = n.
Proof.
  intros H. unfold roundToDouble. apply Z.leb_le in H. now rewrite H.
Qed.

(** Within the safe integers the debit is the exact difference and sum. *)
Lemma debit_exact request current :
  withinSafeIntegers request current ->
  (RedemptionRequest.points_redeemed request
   <= UserProfile.available_points current)%Z ->
  number_sub (UserProfile.available_points current)
    (RedemptionRequest.points_redeemed request)
  = (UserProfile.available_points current
     - RedemptionRequest.points_redeemed request)%Z
  /\ number_add (UserProfile.redeemed_points current)
       (RedemptionRequest.points_redeemed request)
     = (UserProfile.redeemed_points current
        + RedemptionRequest.points_redeemed request)%Z.
Proof.
  unfold withinSafeIntegers, MAX_SAFE_INTEGER, number_sub, number_add.
  intros (H0 & H1 & H2 & H3) Hle.
  split; apply roundToDouble_exact; lia.
Qed.

Lemma isRedeemedFor_true reference t :
  isRedeemedFor reference t = true ->
  Transaction.reference_id t = Some reference
  /\ Transaction.type t = redeemed.
Proof.
  unfold isRedeemedFor.
  destruct (Transaction.reference_id t) as [r|]; [|discriminate].
  destruct (Transaction.type t); try discriminate.
  intros H. apply String.eqb_eq in H. now subst.
Qed.

(** What a completion that goes through, with its ledger write not
    failing, leaves for the request in a ledger that held at most one
    redeemed transaction for it: the inserted row when there was none,
    the row found, amended, when there was one. *)
Lemma completion_records env request w w' :
  run (transition env request Action.completed) w = (w', Ok tt) ->
  ledgerWriteFault env request w = None ->
  List.length (ledgerOf (RedemptionRequest.id request) (db w)) <= 1 ->
  (ledgerOf (RedemptionRequest.id request) (db w) = []
   /\ transactions (db w')
      = (transactions (db w) ++ [newTransaction env request])%list
   /\ ledgerOf (RedemptionRequest.id request) (db w')
      = [newTransaction env request])
  \/ (exists found,
        ledgerOf (RedemptionRequest.id request) (db w) = [found]
        /\ transactions (db w')
           = map (completedAt env request found) (transactions (db w))
        /\ ledgerOf (RedemptionRequest.id request) (db w')
           = [amend TxStatus.completed
                (GCashRedemption (RedemptionRequest.cash_amount request)
                   "Completed")
                (now env AtTxUpdate) found]).
Proof.
  intros Hrun Hfault Hone.
  destruct (completion_ok env request w w' Hrun)
    as (current & _ & _ & _ & _ & _ & _ & Htx).
  unfold ledgerWriteFault in Hfault. unfold ledgerOf in *.
  destruct (select_single (fault env CheckTransaction) _ _)
    as [found|[|m]] eqn:Hfound.
  - right. exists found. rewrite Hfault in Htx.
    apply select_single_data in Hfound as [_ Hfound].
    split; [exact Hfound|]. split; [exact Htx|].
    rewrite Htx.
    rewrite filter_map_stable by (intros; apply isRedeemedFor_completedAt).
    rewrite Hfound. cbn [map]. unfold completedAt.
    now rewrite String.eqb_refl.
  - left. rewrite Hfault in Htx.
    apply select_single_PGRST116 in Hfound as [_ Hfound].
    destruct (filter _ (transactions (db w))) as [|x [|y l]] eqn:E;
      [|now destruct (Hfound x)|cbn in Hone; lia].
    split; [reflexivity|]. split; [exact Htx|].
    rewrite Htx, filter_app, E. cbn. now rewrite String.eqb_refl.
  - exfalso. revert Hrun. run_all; try discriminate; congruence.
Qed.


(** What doubles do beyond the safe integers: with 2^53 points redeemed
    before, the approval of a request of one point goes through, lowers
    the balance by one and leaves redeemed_points at 2^53. *)
Lemma completion_rounds_beyond_safe_integers :
  let request := RedemptionRequest.mk "r1" "u1" 1 50 ReqStatus.pending None 1 1 in
  let w := mkWorld
             (mkDb ["a1"] [request]
                [UserProfile.mk "u1" 9007199254741992 1000 9007199254740992 1]
                [])
             (mkUi [request] [] (Some request) true false) [] [] in
  let after := run (transition Sample.env request Action.completed) w in
  snd after = Ok tt
  /\ user_profiles (db (fst after))
     = [UserProfile.mk "u1" 9007199254741992 999 9007199254740992 7].
Proof. split; vm_compute; reflexivity. Qed.

(** C4: the write to the ledger is an upsert, keyed by the id of the
    request and the type redeemed.  Step 5 looks the redeemed transaction
    of the request up first; the one found is amended in place (status,
    description, updated_at; the table keeps its length and its other
    rows), and when there is none a new one is added, which refers to the
    request, has type redeemed, amount = - points and status completed.
    So a ledger with at most one redeemed transaction per reference stays
    so through every run of the handler; after a completion whose ledger
    write went through the request has exactly one, and a completion run
    again finds that row and amends it: the table does not grow and the
    row keeps its id, amount and creation time. *)
Theorem ledger_write_is_upsert env request w :
  ledger_unique (db w) ->
  (forall action,
     ledger_unique (db (handleRequestAction env request action w)))
  /\ (forall env',
        ledger_unique
          (db (handleRequestAction env' request Action.completed
                 (handleRequestAction env request Action.completed w))))
  /\ (let w' := fst (run (recordTransaction env request) w) in
      fault env CheckTransaction = None ->
      match ledgerOf (RedemptionRequest.id request) (db w) with
      | [] =>
          transactions (db w')
          = match fault env InsertTransaction with
            | None => (transactions (db w) ++ [newTransaction env request])%list
            | Some _ => transactions (db w)
            end
      | found :: _ =>
          transactions (db w')
          = match fault env UpdateTransaction with
            | None => map (completedAt env request found) (transactions (db w))
            | Some _ => transactions (db w)
            end
          /\ List.length (transactions (db w'))
             = List.length (transactions (db w))
      end)
  /\ (Transaction.reference_id (newTransaction env request)
      = Some (RedemptionRequest.id request)
      /\ Transaction.type (newTransaction env request) = redeemed
      /\ Transaction.amount (newTransaction env request)
         = (- RedemptionRequest.points_redeemed request)%Z
      /\ Transaction.status (newTransaction env request) = TxStatus.completed
      /\ Transaction.user_id (newTransaction env request)
         = RedemptionRequest.user_id request)
  /\ (forall w1,
        run (transition env request Action.completed) w = (w1, Ok tt) ->
        ledgerWriteFault env request w = None ->
        exists t,
          ledgerOf (RedemptionRequest.id request) (db w1) = [t]
          /\ Transaction.reference_id t = Some (RedemptionRequest.id request)
          /\ Transaction.type t = redeemed
          /\ Transaction.status t = TxStatus.completed
          /\ List.length (transactions (db w1))
             = List.length (transactions (db w))
               + (match ledgerOf (RedemptionRequest.id request) (db w) with
                  | [] => 1
                  | _ => 0
                  end)
          /\ forall env' w2,
               run (transition env' request Action.completed) w1
               = (w2, Ok tt) ->
               ledgerWriteFault env' request w1 = None ->
               List.length (transactions (db w2))
               = List.length (transactions (db w1))
               /\ exists t',
                    ledgerOf (RedemptionRequest.id request) (db w2) = [t']
                    /\ Transaction.id t' = Transaction.id t
                    /\ Transaction.amount t' = Transaction.amount t
                    /\ Transaction.created_at t' = Transaction.created_at t
                    /\ Transaction.reference_id t'
                       = Some (RedemptionRequest.id request)
                    /\ Transaction.status t' = TxStatus.completed).
Proof.
  intros Hu. split; [|split; [|split; [|split]]].
  - intros action. now apply handler_keeps_unique.
  - intros env'. now apply handler_keeps_unique, handler_keeps_unique.
  - intros w' Hcheck. specialize (Hu (RedemptionRequest.id request)).
    subst w'. unfold ledgerOf in *. unfold_ops. unfold select_single.
    simp_world. rewrite Hcheck.
    destruct (filter _ (transactions (db w))) as [|x [|y l]];
      [| |cbn in Hu; lia]; repeat step;
      repeat split; try reflexivity; apply length_map.
  - now repeat split.
  - intros w1 Hrun Hfault.
    assert (Hrec1 := completion_records env request w w1 Hrun Hfault
                       (Hu (RedemptionRequest.id request))).
    assert (Hu1 : ledger_unique (db w1)).
    { pose proof (transition_keeps_unique env request Action.completed w Hu)
        as H. now rewrite Hrun in H. }
    assert (Hshape : exists t,
               ledgerOf (RedemptionRequest.id request) (db w1) = [t]
               /\ Transaction.reference_id t
                  = Some (RedemptionRequest.id request)
               /\ Transaction.type t = redeemed
               /\ Transaction.status t = TxStatus.completed
               /\ List.length (transactions (db w1))
                  = List.length (transactions (db w))
                    + (match ledgerOf (RedemptionRequest.id request) (db w) with
                       | [] => 1
                       | _ => 0
                       end)).
    { destruct Hrec1 as [(Hnone & Htx & Hafter)|(found & Hfound & Htx & Hafter)].
      - exists (newTransaction env request). rewrite Hnone, Htx, length_app.
        cbn. now repeat split.
      - assert (Hf : isRedeemedFor (RedemptionRequest.id request) found = true).
        { assert (Hin : In found (ledgerOf (RedemptionRequest.id request) (db w)))
            by (rewrite Hfound; now left).
          now apply filter_In in Hin as [_ Hin]. }
        destruct (isRedeemedFor_true _ _ Hf) as [Href Hty].
        eexists. split; [exact Hafter|]. rewrite Hfound, Htx, length_map.
        cbn. repeat split; auto. }
    destruct Hshape as (t & Ht & Href & Hty & Hst & Hlen).
    exists t. split; [exact Ht|]. split; [exact Href|]. split; [exact Hty|].
    split; [exact Hst|]. split; [exact Hlen|].
    intros env' w2 Hrun2 Hfault2.
    destruct (completion_records env' request w1 w2 Hrun2 Hfault2
                (Hu1 (RedemptionRequest.id request)))
      as [(Hnone & _)|(found & Hfound & Htx & Hafter)].
    + rewrite Ht in Hnone. discriminate.
    + rewrite Ht in Hfound. injection Hfound as <-.
      split; [rewrite Htx; apply length_map|].
      eexists. split; [exact Hafter|]. cbn. now repeat split.
Qed.

(** C5, amended: when the balance update has gone through and the write
    of step 5 to the ledger fails, the failure is written to the console
    and not thrown: the writes end normally, the handler shows the success
    alert, the debit stays and the ledger is as it was.  No separate error
    is raised for this case. *)
Theorem ledger_failure_is_logged_not_thrown env request w current m :
  processingAction (ui w) = false ->
  fault env UpdateRequest = None ->
  select_single (fault env SelectProfile) (hasUserId request)
    (user_profiles (db w)) = data current ->
  (RedemptionRequest.points_redeemed request
   <= UserProfile.available_points current)%Z ->
  fault env UpdatePoints = None ->
  ledgerWriteFault env request w = Some m ->
  let after := run (transition env request Action.completed) w in
  let w' := handleRequestAction env request Action.completed w in
  snd after = Ok tt
  /\ (exists rest,
        alerts w' = (alerts w ++ AlertSuccess Action.completed :: rest)%list)
  /\ (exists label,
        console (fst after)
        = (console w ++ [ConsoleError label (Store (Failure m))])%list
        /\ (label = "Error updating transaction:"
            \/ label = "Error creating transaction record:"))
  /\ transactions (db w') = transactions (db w)
  /\ user_profiles (db w')
     = map (debit env request current) (user_profiles (db w)).
Proof.
  intros Hp Hreq Hsel Hle Hpts Hfault after w'.
  assert (Hafter : snd after = Ok tt
          /\ (exists label,
                console (fst after)
                = (console w ++ [ConsoleError label (Store (Failure m))])%list
                /\ (label = "Error updating transaction:"
                    \/ label = "Error creating transaction record:"))
          /\ transactions (db (fst after)) = transactions (db w)
          /\ user_profiles (db (fst after))
             = map (debit env request current) (user_profiles (db w))).
  { subst after. unfold ledgerWriteFault in Hfault.
    apply Z.ltb_ge in Hle. revert Hfault.
    unfold_ops. simp_world. rewrite Hreq. simp_world. rewrite Hsel.
    simp_world. rewrite Hle, Hpts. simp_world.
    destruct (select_single (fault env CheckTransaction) _ _)
      as [found|[|m']]; intros Hfault; try discriminate;
      rewrite Hfault; simp_world;
      (split; [reflexivity|]); (split; [eexists; split; [reflexivity|auto]|]);
      split; reflexivity. }
  destruct Hafter as (Hok & Hcons & Htx & Hprof).
  split; [exact Hok|].
  split.
  { pose proof (handler_alerts env request Action.completed w Hp) as Ha.
    fold after in Ha. now rewrite Hok in Ha. }
  split; [exact Hcons|].
  subst w'. rewrite handler_db by exact Hp. fold after. now split.
Qed.

(** *** What the screen offers *)

Lemma insert_desc_In {A} (key : A -> nat) (x y : A) (l : list A) :
  In y (insert_desc key x l) -> y = x \/ In y l.
Proof.
  induction l as [|z l IH]; cbn.
  - intros [<-|[]]. now left.
  - destruct (key z <=? key x)%nat; cbn.
    + intros [<-|H]; auto.
    + intros [<-|H]; auto. destruct (IH H); auto.
Qed.

Lemma order_desc_In {A} (key : A -> nat) (y : A) (l : list A) :
  In y (order_desc key l) -> In y l.
Proof.
  induction l as [|x l IH]; cbn; [auto|].
  intros H. apply insert_desc_In in H as [->|H]; auto.
Qed.

Lemma firstn_subset {A} (n : nat) (y : A) (l : list A) :
  In y (firstn n l) -> In y l.
Proof.
  revert l. induction n as [|n IH]; intros [|x l]; cbn; try tauto.
  intros [->|H]; auto.
Qed.

(** The write of the request row, when the writes go through. *)
Lemma transition_requests env request action w :
  snd (run (transition env request action) w) = Ok tt ->
  redemption_requests (db (fst (run (transition env request action) w)))
  = map (fun r => if hasRequestId request r
                  then updateData env action r else r)
      (redemption_requests (db w)).
Proof.
  destruct action; run_all; intros H; try discriminate; reflexivity.
Qed.

(** What the screen lists after the writes went through: nothing (the
    session is no administrator's), or the latest rows of the store, or,
    when the fetch failed, the local list with the request rewritten. *)
Lemma handler_listed env request action w :
  processingAction (ui w) = false ->
  snd (run (transition env request action) w) = Ok tt ->
  let w' := handleRequestAction env request action w in
  modalVisible (ui w') = false
  /\ (redemptionRequests (ui w') = []
      \/ redemptionRequests (ui w')
         = firstn 50 (order_desc RedemptionRequest.created_at
                        (redemption_requests
                           (db (fst (run (transition env request action) w)))))
      \/ redemptionRequests (ui w')
         = map (fun req => if hasRequestId request req
                           then localUpdate env action req else req)
             (redemptionRequests (ui w))).
Proof.
  intros Hp. unfold handleRequestAction. rewrite Hp.
  destruct w as [d u al c].
  unfold_screen. unfold run, bind, ret, throw, get. simp_world.
  match goal with |- context [transition env request action ?w1] =>
    destruct (transition_store_only env request action d u al c
                (ui w1) (alerts w1) (console w1)) as (Hd & Hr & _);
    destruct (transition_store_only env request action d
                (ui w1) (alerts w1) (console w1) u al c) as (_ & _ & Hu & _);
    simp_world; unfold run in Hd, Hr, Hu; rewrite Hr, Hd; clear Hr Hd;
    destruct (transition env request action w1) as [w2 [[]|e]]
  end; simp_world; [|discriminate].
  intros _. rewrite Hu.
  repeat step; cbn; auto.
Qed.

Lemma status_eqb_pending (s : ReqStatus.t) :
  ReqStatus.eqb s ReqStatus.pending = true <-> s = ReqStatus.pending.
Proof. destruct s; cbn; split; congruence. Qed.

(** What the screen offers.  An action is offered only for a selected
    request whose status is pending, in a visible modal, while no action is
    being processed; the requests one can select are the pending ones; an
    invocation while an action is being processed changes nothing; and
    after an approval or a rejection whose writes went through no action
    is offered and no request with that id is listed as pending. *)
Lemma screen_gate :
  (forall u a, In a (offeredActions u) ->
     exists r, selectedRequest u = Some r
       /\ RedemptionRequest.status r = ReqStatus.pending
       /\ modalVisible u = true /\ processingAction u = false)
  /\ (forall u r, In r (pendingRequests u) ->
        RedemptionRequest.status r = ReqStatus.pending)
  /\ (forall env request action w,
        processingAction (ui w) = true ->
        handleRequestAction env request action w = w)
  /\ (forall env request action w,
        processingAction (ui w) = false ->
        snd (run (transition env request action) w) = Ok tt ->
        action <> Action.pending ->
        let w' := handleRequestAction env request action w in
        offeredActions (ui w') = []
        /\ forall r, In r (pendingRequests (ui w')) ->
             RedemptionRequest.id r <> RedemptionRequest.id request).
Proof.
  split; [|split; [|split]].
  - intros u a. unfold offeredActions.
    destruct (selectedRequest u) as [r|]; [|intros []].
    destruct (modalVisible u); [|intros []].
    destruct (ReqStatus.eqb _ _) eqn:E; [|intros []].
    destruct (processingAction u); [intros []|]. intros _.
    exists r. apply status_eqb_pending in E. auto.
  - intros u r Hin. apply filter_In in Hin as [_ H].
    now apply status_eqb_pending.
  - apply handler_busy.
  - intros env request action w Hp Hok Hact w'.
    destruct (handler_listed env request action w Hp Hok) as [Hmodal Hlist].
    fold w' in Hmodal, Hlist. split.
    + unfold offeredActions. rewrite Hmodal.
      now destruct (selectedRequest (ui w')).
    + intros r Hin Hid. apply filter_In in Hin as [Hin Hst].
      apply status_eqb_pending in Hst.
      assert (Hnp : Action.status action <> ReqStatus.pending)
        by (destruct action; [congruence|discriminate|discriminate]).
      apply String.eqb_eq in Hid.
      destruct Hlist as [H|[H|H]]; rewrite H in Hin.
      * destruct Hin.
      * apply firstn_subset, order_desc_In in Hin.
        rewrite (transition_requests env request action w Hok) in Hin.
        apply in_map_iff in Hin as (x & Hx & _).
        unfold hasRequestId in Hx.
        destruct (RedemptionRequest.id x =? RedemptionRequest.id request) eqn:E.
        -- subst r. cbn in Hst. contradiction.
        -- subst x. congruence.
      * apply in_map_iff in Hin as (x & Hx & _).
        unfold hasRequestId in Hx.
        destruct (RedemptionRequest.id x =? RedemptionRequest.id request) eqn:E.
        -- subst r. cbn in Hst. contradiction.
        -- subst x. congruence.
Qed.

(** *** The order of the writes *)

(** The debit of step 4 is made once the request row is written, the
    profile is read and holds enough points, whatever happens next. *)
Lemma completion_debit env request w current :
  fault env UpdateRequest = None ->
  select_single (fault env SelectProfile) (hasUserId request)
    (user_profiles (db w)) = data current ->
  (RedemptionRequest.points_redeemed request
   <= UserProfile.available_points current)%Z ->
  fault env UpdatePoints = None ->
  user_profiles (db (fst (run (transition env request Action.completed) w)))
  = map (debit env request current) (user_profiles (db w)).
Proof.
  intros Hreq Hsel Hle Hpts. apply Z.ltb_ge in Hle.
  unfold_ops. simp_world. rewrite Hreq. simp_world. rewrite Hsel.
  simp_world. rewrite Hle, Hpts. simp_world.
  repeat step; reflexivity.
Qed.

(** C3: the handler does not refuse a request that is no longer pending.
    It makes no check of the status, and the screen decides what to offer
    from the selected request, which no run changes, in a modal that only
    a run without a throw closes.  So after an approval that throws once the
    request row is written, every stored row of the request is completed,
    the failure is shown, and the screen offers exactly the actions it
    offered before; pressed again, the handler does not refuse: it debits
    the profile it then reads. *)
Theorem thrown_approval_is_offered_again env request w e :
  processingAction (ui w) = false ->
  fault env UpdateRequest = None ->
  snd (run (transition env request Action.completed) w) = Throw e ->
  let w1 := handleRequestAction env request Action.completed w in
  offeredActions (ui w1) = offeredActions (ui w)
  /\ (forall r, In r (requestsOf (RedemptionRequest.id request) (db w1)) ->
        RedemptionRequest.status r = ReqStatus.completed)
  /\ alerts w1 = (alerts w ++ [AlertFailed Action.completed e])%list
  /\ (forall env2 current,
        fault env2 UpdateRequest = None ->
        select_single (fault env2 SelectProfile) (hasUserId request)
          (user_profiles (db w1)) = data current ->
        (RedemptionRequest.points_redeemed request
         <= UserProfile.available_points current)%Z ->
        fault env2 UpdatePoints = None ->
        user_profiles
          (db (handleRequestAction env2 request Action.completed w1))
        = map (debit env2 request current) (user_profiles (db w1))).
Proof.
  intros Hp Hf Hthrow w1.
  destruct (handler_ui env request Action.completed w Hp) as (Hbusy & Hsel & H).
  pose proof (handler_alerts env request Action.completed w Hp) as Ha.
  rewrite Hthrow in H, Ha. destruct H as (Hmodal & _). destruct Ha as [Ha _].
  fold w1 in Hbusy, Hsel, Hmodal, Ha.
  split; [|split; [|split]].
  - unfold offeredActions. now rewrite Hsel, Hmodal, Hbusy, Hp.
  - intros r Hin. subst w1. rewrite handler_db in Hin by exact Hp.
    unfold requestsOf in Hin. rewrite transition_requests_any, Hf in Hin.
    apply filter_In in Hin as [Hin Hid].
    apply in_map_iff in Hin as (x & Hx & _).
    destruct (hasRequestId request x) eqn:E.
    + now subst r.
    + subst x. unfold hasRequestId in E. congruence.
  - exact Ha.
  - intros env2 current Hf2 Hsel2 Hle2 Hpts2.
    rewrite handler_db by exact Hbusy. now apply completion_debit.
Qed.

(** C1: a completion whose re-read balance is too low.  The handler throws
    the insufficient-points error, shows it, and leaves the profiles and
    the ledger as they were; but the request row is already written: every
    row with the id of the request has status completed and processed_at
    set. *)
Theorem insufficient_points_after_request_write env request w current :
  processingAction (ui w) = false ->
  fault env UpdateRequest = None ->
  select_single (fault env SelectProfile) (hasUserId request)
    (user_profiles (db w)) = data current ->
  (UserProfile.available_points current
   < RedemptionRequest.points_redeemed request)%Z ->
  let w' := handleRequestAction env request Action.completed w in
  snd (run (transition env request Action.completed) w)
  = Throw (InsufficientPoints (UserProfile.available_points current)
             (RedemptionRequest.points_redeemed request))
  /\ alerts w'
     = (alerts w
        ++ [AlertFailed Action.completed
              (InsufficientPoints (UserProfile.available_points current)
                 (RedemptionRequest.points_redeemed request))])%list
  /\ user_profiles (db w') = user_profiles (db w)
  /\ transactions (db w') = transactions (db w)
  /\ redemption_requests (db w')
     = map (fun r => if hasRequestId request r
                     then updateData env Action.completed r else r)
         (redemption_requests (db w))
  /\ (forall r, In r (requestsOf (RedemptionRequest.id request) (db w')) ->
        RedemptionRequest.status r = ReqStatus.completed
        /\ RedemptionRequest.processed_at r = Some (now env AtProcessedAt)).
Proof.
  intros Hp Hreq Hsel Hlt w'. apply Z.ltb_lt in Hlt.
  assert (Hrun : run (transition env request Action.completed) w
                 = (mkWorld
                      (with_requests
                         (map (fun r => if hasRequestId request r
                                        then updateData env Action.completed r
                                        else r)
                            (redemption_requests (db w))) (db w))
                      (ui w) (alerts w) (console w),
                    Throw (InsufficientPoints
                             (UserProfile.available_points current)
                             (RedemptionRequest.points_redeemed request)))).
  { unfold_ops. simp_world. rewrite Hreq. simp_world. rewrite Hsel.
    simp_world. now rewrite Hlt. }
  pose proof (handler_alerts env request Action.completed w Hp) as Ha.
  pose proof (handler_db env request Action.completed w Hp) as Hd.
  fold w' in Ha, Hd. rewrite Hrun in Ha, Hd. simp_world.
  rewrite Hrun. simp_world. destruct Ha as [Ha _].
  split; [reflexivity|]. split; [exact Ha|].
  rewrite Hd. simp_world.
  split; [reflexivity|]. split; [reflexivity|]. split; [reflexivity|].
  intros r Hin. unfold requestsOf in Hin. simp_world.
  apply filter_In in Hin as [Hin Hid].
  apply in_map_iff in Hin as (x & Hx & _).
  destruct (hasRequestId request x) eqn:E.
  - subst r. split; reflexivity.
  - subst x. unfold hasRequestId in E. congruence.
Qed.

(** C6: the handler does not ask [checkAdminStatus].  In a session for
    which it answers false, a completion still writes the request row and
    debits the profile; and when its writes go through it shows the
    success alert. *)
Theorem completion_without_admin_check env request w current :
  processingAction (ui w) = false ->
  snd (run (checkAdminStatus env) w) = Ok false ->
  fault env UpdateRequest = None ->
  select_single (fault env SelectProfile) (hasUserId request)
    (user_profiles (db w)) = data current ->
  (RedemptionRequest.points_redeemed request
   <= UserProfile.available_points current)%Z ->
  fault env UpdatePoints = None ->
  let w' := handleRequestAction env request Action.completed w in
  user_profiles (db w')
  = map (debit env request current) (user_profiles (db w))
  /\ (snd (run (transition env request Action.completed) w) = Ok tt ->
      redemption_requests (db w')
      = map (fun r => if hasRequestId request r
                      then updateData env Action.completed r else r)
          (redemption_requests (db w))
      /\ exists rest,
           alerts w'
           = (alerts w ++ AlertSuccess Action.completed :: rest)%list).
Proof.
  intros Hp _ Hreq Hsel Hle Hpts w'. subst w'.
  rewrite handler_db by exact Hp. split.
  - now apply completion_debit.
  - intros Hok. split.
    + now apply transition_requests.
    + pose proof (handler_alerts env request Action.completed w Hp) as Ha.
      now rewrite Hok in Ha.
Qed.

(** *** The scenarios, run *)

(** C6 at a failing input: the session of a user without a row in
    [admins] completes the pending request of 500 points: the profile goes
    from 1000 available to 500, the success alert is shown, and only then
    do the two fetches show 'Access Denied'. *)
Lemma completion_without_admin_check_witness :
  let w := Sample.world 1000 ReqStatus.pending [] in
  let w' := handleRequestAction Sample.env_not_admin
              (Sample.request ReqStatus.pending) Action.completed w in
  snd (run (checkAdminStatus Sample.env_not_admin) w) = Ok false
  /\ user_profiles (db w') = [UserProfile.mk "u1" 1000 500 500 7]
  /\ alerts w'
     = [AlertSuccess Action.completed;
        AlertText "Access Denied" "You do not have admin privileges";
        AlertText "Access Denied" "You do not have admin privileges"].
Proof.
  intros w w'. split; [reflexivity|]. split; [|reflexivity].
  exact (proj1 (completion_without_admin_check Sample.env_not_admin
                  (Sample.request ReqStatus.pending) w (Sample.profile 1000)
                  eq_refl eq_refl eq_refl eq_refl
                  ltac:(cbn; lia) eq_refl)).
Defined.

(** C1 at the failing input of the specification's scenario: 100 points
    available, 500 requested.  The handler shows the error and the balance
    is as it was, while the stored request has gone from pending to
    completed with processed_at set. *)
Lemma insufficient_points_after_request_write_witness :
  let w := Sample.world 100 ReqStatus.pending [] in
  let w' := handleRequestAction Sample.env
              (Sample.request ReqStatus.pending) Action.completed w in
  alerts w' = [AlertFailed Action.completed (InsufficientPoints 100 500)]
  /\ user_profiles (db w') = [Sample.profile 100]
  /\ map RedemptionRequest.status (redemption_requests (db w))
     = [ReqStatus.pending]
  /\ map RedemptionRequest.status (redemption_requests (db w'))
     = [ReqStatus.completed]
  /\ map RedemptionRequest.processed_at (redemption_requests (db w'))
     = [Some 7].
Proof.
  intros w w'.
  destruct (insufficient_points_after_request_write Sample.env
              (Sample.request ReqStatus.pending) w (Sample.profile 100)
              eq_refl eq_refl eq_refl ltac:(cbn; lia))
    as (_ & Ha & Hprof & _ & Hreq & _).
  fold w' in Ha, Hprof, Hreq.
  split; [exact Ha|]. split; [exact Hprof|]. split; [reflexivity|].
  rewrite Hreq. split; reflexivity.
Defined.

(** C3 at a failing input: the pending request of 500 points, 1000
    points available.  The first press writes the request row and the
    debit and then throws on the lookup of the transaction; the stored
    request is completed, the modal still offers both actions, and the
    second press goes through: the profile is debited again, to 0. *)
Lemma thrown_approval_is_offered_again_witness :
  let request := Sample.request ReqStatus.pending in
  let env1 := mkEnv (Some "a1") (fun _ => 7) "t1"
                (fun c => match c with
                          | CheckTransaction => Some "offline"
                          | _ => None
                          end) in
  let w := Sample.world 1000 ReqStatus.pending [] in
  let w1 := handleRequestAction env1 request Action.completed w in
  let w2 := handleRequestAction Sample.env request Action.completed w1 in
  offeredActions (ui w1) = [Action.completed; Action.rejected]
  /\ map RedemptionRequest.status (redemption_requests (db w1))
     = [ReqStatus.completed]
  /\ user_profiles (db w1) = [UserProfile.mk "u1" 1000 500 500 7]
  /\ user_profiles (db w2) = [UserProfile.mk "u1" 1000 0 1000 7]
  /\ alerts w2
     = [AlertFailed Action.completed (Store (Failure "offline"));
        AlertSuccess Action.completed].
Proof.
  intros request env1 w w1 w2.
  destruct (thrown_approval_is_offered_again env1 request w
              (Store (Failure "offline")) eq_refl eq_refl eq_refl)
    as (Hoff & _ & _ & Hagain).
  fold w1 in Hoff, Hagain.
  split; [rewrite Hoff; reflexivity|].
  split; [reflexivity|]. split; [reflexivity|]. split; [|reflexivity].
  exact (Hagain Sample.env (UserProfile.mk "u1" 1000 500 500 7)
           eq_refl eq_refl ltac:(cbn; lia) eq_refl).
Defined.


Lemma sample_profile_safe (available : Z) :
  (available <= MAX_SAFE_INTEGER)%Z ->
  forall p,
    In p (profilesOf "u1" (db (Sample.world available ReqStatus.pending []))) ->
    withinSafeIntegers (Sample.request ReqStatus.pending) p.
Proof.
  intros Ha p [<-|[]]. unfold withinSafeIntegers, MAX_SAFE_INTEGER in *.
  cbn. lia.
Qed.


Lemma sample_ledger_unique (st : ReqStatus.t) (e : Transaction.t) :
  ledger_unique (db (Sample.world 1000 st [e])).
Proof.
  intros reference. unfold ledgerOf. cbn.
  destruct (isRedeemedFor reference e); cbn; lia.
Qed.

Lemma sample_ledger_empty_unique (available : Z) (st : ReqStatus.t) :
  ledger_unique (db (Sample.world available st [])).
Proof. intros reference. cbn. lia. Qed.

Lemma ledger_write_is_upsert_witness :
  let request := Sample.request ReqStatus.pending in
  let w := Sample.world 1000 ReqStatus.pending [] in
  let w1 := fst (run (transition Sample.env request Action.completed) w) in
  let w2 := fst (run (transition Sample.env request Action.completed) w1) in
  let held := Sample.world 1000 ReqStatus.pending
                [Sample.entry TxStatus.pending] in
  transactions (db w1)
  = [Transaction.mk "t1" "u1" redeemed (-500)
       (GCashRedemption 25000 "Completed") TxStatus.completed (Some "r1") 7 7]
  /\ (exists t, ledgerOf "r1" (db w1) = [t]
                /\ Transaction.reference_id t = Some "r1"
                /\ List.length (transactions (db w1)) = 1)
  /\ List.length (transactions (db w2)) = List.length (transactions (db w1))
  /\ ledger_unique
       (db (handleRequestAction Sample.env request Action.completed held))
  /\ transactions
       (db (handleRequestAction Sample.env request Action.completed held))
     = [Transaction.mk "t0" "u1" redeemed (-500)
          (GCashRedemption 25000 "Completed") TxStatus.completed
          (Some "r1") 1 7].
Proof.
  intros request w w1 w2 held.
  destruct (ledger_write_is_upsert Sample.env request w
              (sample_ledger_empty_unique _ _)) as (_ & _ & _ & _ & Hrun).
  destruct (Hrun w1 eq_refl eq_refl) as (t & Ht & Href & _ & _ & Hlen & Hagain).
  destruct (Hagain Sample.env w2 eq_refl eq_refl) as [Hsame _].
  split; [reflexivity|].
  split; [exists t; split; [exact Ht|]; split; [exact Href|exact Hlen]|].
  split; [exact Hsame|].
  split; [|reflexivity].
  exact (proj1 (ledger_write_is_upsert Sample.env request held
                  (sample_ledger_unique _ _)) Action.completed).
Defined.

(** C5 fails: the profile is debited, the insert into [transactions]
    fails, and the handler shows the success alert. *)
Lemma failed_ledger_write_reported_as_success :
  ~ partial_commit_is_no_success Sample.env_insert_fails
      (Sample.request ReqStatus.pending)
      (Sample.world 1000 ReqStatus.pending []).
Proof.
  intros H. apply H.
  - discriminate.
  - discriminate.
  - now left.
Qed.

Lemma ledger_failure_is_logged_not_thrown_witness :
  let w := Sample.world 1000 ReqStatus.pending [] in
  let w' := handleRequestAction Sample.env_insert_fails
              (Sample.request ReqStatus.pending) Action.completed w in
  alerts w' = [AlertSuccess Action.completed]
  /\ transactions (db w') = []
  /\ user_profiles (db w') = [UserProfile.mk "u1" 1000 500 500 7].
Proof.
  intros w w'.
  destruct (ledger_failure_is_logged_not_thrown Sample.env_insert_fails
              (Sample.request ReqStatus.pending) w (Sample.profile 1000)
              "insert failed" eq_refl eq_refl eq_refl ltac:(cbn; lia)
              eq_refl eq_refl)
    as (_ & _ & _ & Htx & Hprof).
  split; [reflexivity|]. split; [exact Htx | exact Hprof].
Defined.


(* ===================================================================== *)
(** ** Part 5: more about the home screen *)
(* ===================================================================== *)

Lemma unreadCount_cons (n : Notification.t) (l : list Notification.t) :
  unreadCount (n :: l)
  = (if Notification.read n then 0 else 1) + unreadCount l.
Proof. unfold unreadCount. cbn. now destruct (Notification.read n). Qed.

Lemma hasId_In (i : string) (l : list Notification.t) :
  hasId i l <-> In i (map Notification.id l).
Proof.
  unfold hasId. rewrite in_map_iff. split; intros (n & H1 & H2); eauto.
Qed.

(** X1: 'Mark all read' brings the badge to zero and touches nothing but
    the read flags: every entry stays in its place with its id, title,
    message, severity and creation time. *)
Theorem markAllAsRead_clears_badge (l : list Notification.t) :
  unreadCount (markAllAsRead l) = 0
  /\ List.length (markAllAsRead l) = List.length l
  /\ forall i n, nth_error l i = Some n ->
       nth_error (markAllAsRead l) i
       = Some (Notification.mk (Notification.id n) (Notification.title n)
                 (Notification.message n) (Notification.type n)
                 (Notification.created_at n) true).
Proof.
  split; [|split].
  - induction l as [|n l IH]; [reflexivity|].
    unfold markAllAsRead in *. cbn [map]. now rewrite unreadCount_cons, IH.
  - apply length_map.
  - intros i n H. unfold markAllAsRead. now rewrite nth_error_map, H.
Qed.

Lemma markAllAsRead_clears_badge_witness :
  nth_error (markAllAsRead [newNotification Sample.notice]) 0
  = Some (Notification.mk "n1" "Maintenance" "Tonight" warning "2025-01-01"
            true).
Proof.
  exact (proj2 (proj2 (markAllAsRead_clears_badge
                         [newNotification Sample.notice]))
           0 (newNotification Sample.notice) eq_refl).
Defined.

(** X2: marking one notification as read is idempotent, commutes with
    marking another, is absorbed by 'Mark all read', and lowers the badge
    by exactly the number of unread entries that carry the id. *)
Theorem markNotificationAsRead_algebra (i j : string)
  (l : list Notification.t) :
  markNotificationAsRead i (markNotificationAsRead i l)
  = markNotificationAsRead i l
  /\ markNotificationAsRead i (markNotificationAsRead j l)
     = markNotificationAsRead j (markNotificationAsRead i l)
  /\ markAllAsRead (markNotificationAsRead i l) = markAllAsRead l
  /\ unreadCount (markNotificationAsRead i l)
     + List.length (filter (fun n => (Notification.id n =? i)
                                     && negb (Notification.read n)) l)
     = unreadCount l.
Proof.
  unfold markNotificationAsRead, markAllAsRead.
  split; [|split; [|split]].
  - rewrite map_map. apply map_ext. intros n.
    destruct (Notification.id n =? i) eqn:E; cbn; now rewrite E.
  - rewrite !map_map. apply map_ext. intros n.
    destruct (Notification.id n =? i) eqn:Ei,
             (Notification.id n =? j) eqn:Ej; cbn; now rewrite ?Ei, ?Ej.
  - rewrite map_map. apply map_ext. intros n.
    now destruct (Notification.id n =? i).
  - induction l as [|n l IH]; [reflexivity|].
    cbn [map filter]. rewrite !unreadCount_cons.
    destruct (Notification.id n =? i), (Notification.read n) eqn:R;
      cbn [asRead Notification.read andb negb List.length];
      rewrite ?R; lia.
Qed.

(** X3: the feed keeps its ids distinct under every update and delete
    event and under an insert of an id it does not hold; an insert of an
    id it already holds is not merged: the id is then held once more. *)
Theorem feed_ids_stay_distinct (payload : Payload)
  (l : list Notification.t) :
  NoDup (ids l) ->
  match payload with
  | INSERT new =>
      (~ hasId (Raw.id new) l -> NoDup (ids (onChange payload l)))
      /\ countId (Raw.id new) (onChange payload l)
         = S (countId (Raw.id new) l)
  | UPDATE _ | DELETE _ => NoDup (ids (onChange payload l))
  end.
Proof.
  intros Hnd. destruct payload as [new|new|old]; unfold ids in *.
  - split.
    + intros Habs. cbn. constructor; [|exact Hnd].
      now rewrite <- hasId_In.
    + unfold countId. cbn. now rewrite String.eqb_refl.
  - cbn [onChange]. rewrite map_map.
    erewrite map_ext; [exact Hnd|]. intros n. cbv beta.
    now destruct (Notification.id n =? Raw.id new).
  - cbn [onChange]. induction l as [|n l IH]; cbn; [constructor|].
    inversion Hnd as [|? ? Hn Hl]; subst.
    destruct (Notification.id n =? Raw.id old); cbn; [now apply IH|].
    constructor; [|now apply IH].
    intros Hin. apply Hn. apply in_map_iff in Hin as (x & Hx & Hin).
    apply filter_In in Hin as [Hin _]. apply in_map_iff. eauto.
Qed.

Lemma feed_ids_stay_distinct_witness :
  NoDup (ids (onChange (INSERT Sample.notice) []))
  /\ countId "n1" (onChange (INSERT Sample.notice)
                     (onChange (INSERT Sample.notice) [])) = 2.
Proof.
  split.
  - apply (proj1 (feed_ids_stay_distinct (INSERT Sample.notice) []
                    (NoDup_nil _))).
    intros (n & [] & _).
  - refine (proj2 (feed_ids_stay_distinct (INSERT Sample.notice)
                     (onChange (INSERT Sample.notice) []) _)).
    constructor; [intros []|constructor].
Defined.

Lemma filter_filter_same {A} (P : A -> bool) (l : list A) :
  filter P (filter P l) = filter P l.
Proof.
  induction l as [|x l IH]; cbn; [reflexivity|].
  destruct (P x) eqn:E; cbn; now rewrite ?E, IH.
Qed.

Lemma filter_comm {A} (P Q : A -> bool) (l : list A) :
  filter P (filter Q l) = filter Q (filter P l).
Proof.
  induction l as [|x l IH]; cbn; [reflexivity|].
  destruct (P x) eqn:EP, (Q x) eqn:EQ; cbn; now rewrite ?EP, ?EQ, IH.
Qed.

Lemma filter_all {A} (P : A -> bool) (l : list A) :
  (forall x, In x l -> P x = true) -> filter P l = l.
Proof.
  induction l as [|x l IH]; cbn; [reflexivity|]. intros H.
  rewrite (H x) by now left. f_equal. apply IH. intros y Hy. apply H.
  now right.
Qed.

Lemma unreadCount_filter_le (P : Notification.t -> bool)
  (l : list Notification.t) :
  unreadCount (filter P l) <= unreadCount l.
Proof.
  induction l as [|n l IH]; cbn [filter]; [lia|].
  destruct (P n); rewrite ?unreadCount_cons;
    destruct (Notification.read n); lia.
Qed.

(** X4: a delete event takes out every entry of the id and nothing else:
    the entries of any other id stay, in their order; it changes nothing
    when the id is not held; done twice it is as done once; and the badge
    never grows. *)
Theorem delete_event_removes_only_the_id (old : Raw.t)
  (l : list Notification.t) :
  countId (Raw.id old) (onChange (DELETE old) l) = 0
  /\ (forall j, j <> Raw.id old ->
        filter (fun n => Notification.id n =? j) (onChange (DELETE old) l)
        = filter (fun n => Notification.id n =? j) l)
  /\ (~ hasId (Raw.id old) l -> onChange (DELETE old) l = l)
  /\ onChange (DELETE old) (onChange (DELETE old) l) = onChange (DELETE old) l
  /\ unreadCount (onChange (DELETE old) l) <= unreadCount l.
Proof.
  cbn [onChange]. split; [|split; [|split; [|split]]].
  - unfold countId. induction l as [|n l IH]; cbn; [reflexivity|].
    destruct (Notification.id n =? Raw.id old) eqn:E; cbn; [exact IH|].
    now rewrite E.
  - intros j Hj. rewrite filter_comm.
    induction l as [|n l IH]; cbn; [reflexivity|].
    destruct (Notification.id n =? j) eqn:E; cbn; [|exact IH].
    apply String.eqb_eq in E.
    assert (Hn : (Notification.id n =? Raw.id old) = false)
      by (apply String.eqb_neq; congruence).
    rewrite Hn. cbn. now rewrite IH.
  - intros Habs. apply filter_all. intros n Hin.
    apply negb_true_iff, String.eqb_neq. intros Hid. apply Habs.
    now exists n.
  - apply filter_filter_same.
  - apply unreadCount_filter_le.
Qed.

Lemma delete_event_removes_only_the_id_witness :
  onChange (DELETE Sample.notice)
    [newNotification (Raw.mk "n2" "Hello" "World" "low" "2025-01-02")]
  = [newNotification (Raw.mk "n2" "Hello" "World" "low" "2025-01-02")].
Proof.
  apply (proj1 (proj2 (proj2 (delete_event_removes_only_the_id Sample.notice
    [newNotification (Raw.mk "n2" "Hello" "World" "low" "2025-01-02")])))).
  intros (n & [<-|[]] & Hid). discriminate Hid.
Defined.

(** X5: how the events move the badge and order: an insert puts one
    unread entry in front; an update keeps the ids in their order and the
    badge as it is; of two updates of one id the later wins, and an update
    repeated changes nothing more. *)
Theorem update_event_last_wins (r1 r2 : Raw.t) (l : list Notification.t) :
  unreadCount (onChange (INSERT r1) l) = S (unreadCount l)
  /\ ids (onChange (INSERT r1) l) = Raw.id r1 :: ids l
  /\ ids (onChange (UPDATE r1) l) = ids l
  /\ unreadCount (onChange (UPDATE r1) l) = unreadCount l
  /\ onChange (UPDATE r1) (onChange (UPDATE r1) l) = onChange (UPDATE r1) l
  /\ (Raw.id r1 = Raw.id r2 ->
      onChange (UPDATE r2) (onChange (UPDATE r1) l) = onChange (UPDATE r2) l).
Proof.
  split; [|split; [|split; [|split; [|split]]]].
  - cbn [onChange]. now rewrite unreadCount_cons.
  - reflexivity.
  - unfold ids. cbn [onChange]. rewrite map_map. apply map_ext. intros n.
    now destruct (Notification.id n =? Raw.id r1).
  - cbn [onChange]. induction l as [|n l IH]; [reflexivity|].
    cbn [map]. rewrite !unreadCount_cons, IH.
    now destruct (Notification.id n =? Raw.id r1).
  - cbn [onChange]. rewrite map_map. apply map_ext. intros n.
    destruct (Notification.id n =? Raw.id r1) eqn:E; cbn; now rewrite E.
  - intros Hid. cbn [onChange]. rewrite map_map. apply map_ext. intros n.
    rewrite <- Hid.
    destruct (Notification.id n =? Raw.id r1) eqn:E; cbn; now rewrite E.
Qed.

Lemma update_event_last_wins_witness :
  onChange (UPDATE (revised Sample.notice "Moved" "Tomorrow" "critical"))
    (onChange (UPDATE Sample.notice) [newNotification Sample.notice])
  = onChange (UPDATE (revised Sample.notice "Moved" "Tomorrow" "critical"))
      [newNotification Sample.notice].
Proof.
  exact (proj2 (proj2 (proj2 (proj2 (proj2
           (update_event_last_wins Sample.notice
              (revised Sample.notice "Moved" "Tomorrow" "critical")
              [newNotification Sample.notice]))))) eq_refl).
Defined.


(** X7: the icon of a notification made from a row is decided by the
    priority of the row: 'critical' shows alert-circle, 'high' shows
    warning, every other priority shows information-circle; the
    checkmark-circle of the success severity is never shown for it. *)
Theorem icon_of_priority (p : string) :
  let icon := getNotificationIcon (typeName (getNotificationType p)) in
  (p = "critical" -> icon = Icon.mk "alert-circle" "#FF3B30")
  /\ (p = "high" -> icon = Icon.mk "warning" "#FF9500")
  /\ (p <> "critical" -> p <> "high" ->
      icon = Icon.mk "information-circle" "#007AFF")
  /\ Icon.name icon <> "checkmark-circle".
Proof.
  intros icon. subst icon. unfold getNotificationType.
  destruct (p =? "critical") eqn:Ec; [|destruct (p =? "high") eqn:Eh].
  - apply String.eqb_eq in Ec. subst p.
    repeat split; try reflexivity; try discriminate; congruence.
  - apply String.eqb_eq in Eh. subst p.
    repeat split; try reflexivity; try discriminate; congruence.
  - apply String.eqb_neq in Ec. apply String.eqb_neq in Eh.
    repeat split; try reflexivity; try discriminate; contradiction.
Qed.

Lemma icon_of_priority_witness :
  getNotificationIcon (typeName (getNotificationType "critical"))
  = Icon.mk "alert-circle" "#FF3B30"
  /\ getNotificationIcon (typeName (getNotificationType "low"))
     = Icon.mk "information-circle" "#007AFF".
Proof.
  split.
  - exact (proj1 (icon_of_priority "critical") eq_refl).
  - apply (proj1 (proj2 (proj2 (icon_of_priority "low")))); discriminate.
Defined.

(** X8: deleting a notification is a soft delete that waits for the
    store.  No row ever leaves the table and no row's content changes;
    on 'Cancel', or when the store call fails, table and list are as they
    were (a failure shows the error alert); on 'Delete' with the call going
    through, every stored row of the id is inactive, the other rows are
    untouched, the list holds no entry of the id, and the success alert is
    shown. *)
Theorem deleteNotification_is_soft (choice : Choice)
  (failure : option string) (notificationId : string) (h : Home) :
  let h' := deleteNotification choice failure notificationId h in
  map StoredNotification.row (system_notifications h')
  = map StoredNotification.row (system_notifications h)
  /\ (choice = Cancel \/ failure <> None ->
      system_notifications h' = system_notifications h
      /\ notifications h' = notifications h
      /\ ~ In (AlertText "Success" "Notification deleted successfully")
           (skipn (List.length (home_alerts h)) (home_alerts h')))
  /\ (choice = Delete -> failure = None ->
      countId notificationId (notifications h') = 0
      /\ (forall s, In s (system_notifications h') ->
            Raw.id (StoredNotification.row s) = notificationId ->
            StoredNotification.active s = false)
      /\ (forall i s, nth_error (system_notifications h) i = Some s ->
            Raw.id (StoredNotification.row s) <> notificationId ->
            nth_error (system_notifications h') i = Some s)
      /\ home_alerts h'
         = (home_alerts h
            ++ [AlertText "Delete Notification"
                  "Are you sure you want to delete this notification?";
                AlertText "Success" "Notification deleted successfully"])%list).
Proof.
  intros h'. subst h'. split; [|split].
  - destruct choice; [reflexivity|]. unfold deleteNotification, update_rows.
    destruct failure; cbn [system_notifications]; [reflexivity|].
    rewrite map_map. apply map_ext. intros s.
    now destruct (_ =? _).
  - intros [-> | Hf].
    + cbn. split; [reflexivity|split; [reflexivity|]].
      rewrite skipn_app, skipn_all, Nat.sub_diag. cbn.
      intros [H|[]]. discriminate H.
    + destruct choice.
      * cbn. split; [reflexivity|split; [reflexivity|]].
        rewrite skipn_app, skipn_all, Nat.sub_diag. cbn.
        intros [H|[]]. discriminate H.
      * unfold deleteNotification, update_rows.
        destruct failure as [m|]; [|contradiction].
        cbn. split; [reflexivity|split; [reflexivity|]].
        rewrite <- app_assoc, skipn_app, skipn_all, Nat.sub_diag. cbn.
        intros [H|[H|[]]]; discriminate H.
  - intros -> ->. unfold deleteNotification, update_rows.
    cbn [system_notifications notifications home_alerts].
    split; [|split; [|split]].
    + unfold countId. induction (notifications h) as [|n l IH]; cbn;
        [reflexivity|].
      destruct (Notification.id n =? notificationId) eqn:E; cbn;
        [exact IH|]. now rewrite E.
    + intros s Hin Hid. apply in_map_iff in Hin as (x & Hx & _).
      destruct (Raw.id (StoredNotification.row x) =? notificationId) eqn:E.
      * now subst s.
      * subst x. apply String.eqb_neq in E. contradiction.
    + intros i s Hs Hid. rewrite nth_error_map, Hs. cbn.
      apply String.eqb_neq in Hid. now rewrite Hid.
    + now rewrite <- app_assoc.
Qed.

Lemma deleteNotification_is_soft_witness :
  let h := mkHome [StoredNotification.mk Sample.notice true]
             [newNotification Sample.notice] [] [] in
  notifications (deleteNotification Delete (Some "offline") "n1" h)
  = [newNotification Sample.notice]
  /\ countId "n1" (notifications (deleteNotification Delete None "n1" h)) = 0.
Proof.
  intros h. split.
  - apply (proj1 (proj2 (deleteNotification_is_soft Delete (Some "offline")
                           "n1" h))).
    right. discriminate.
  - now apply (proj2 (proj2 (deleteNotification_is_soft Delete None "n1" h))).
Defined.

(* ===================================================================== *)
(** ** Part 6: more about the transactions screen *)
(* ===================================================================== *)

(** The profiles after the writes: as they were, or debited from the one
    profile that was read. *)
Lemma transition_profiles_any env request action w :
  let w' := fst (run (transition env request action) w) in
  user_profiles (db w') = user_profiles (db w)
  \/ exists current,
       select_single (fault env SelectProfile) (hasUserId request)
         (user_profiles (db w)) = data current
       /\ (RedemptionRequest.points_redeemed request
           <= UserProfile.available_points current)%Z
       /\ action = Action.completed
       /\ user_profiles (db w')
          = map (debit env request current) (user_profiles (db w)).
Proof.
  destruct action; run_all; auto.
  all: right; eexists; split; [reflexivity|];
    split; [apply Z.ltb_ge; eassumption|]; split; reflexivity.
Qed.





(** X10: when the first store call, the update of the request row, fails,
    nothing is written: the four tables are as they were; the handler
    shows the failure with the store's error and no success. *)
Theorem failed_request_update_writes_nothing env request action w m :
  processingAction (ui w) = false ->
  fault env UpdateRequest = Some m ->
  let w' := handleRequestAction env request action w in
  admins (db w') = admins (db w)
  /\ redemption_requests (db w') = redemption_requests (db w)
  /\ user_profiles (db w') = user_profiles (db w)
  /\ transactions (db w') = transactions (db w)
  /\ alerts w' = (alerts w ++ [AlertFailed action (Store (Failure m))])%list.
Proof.
  intros Hp Hf w'. subst w'.
  assert (Hrun : run (transition env request action) w
                 = (mkWorld (with_requests (redemption_requests (db w)) (db w))
                      (ui w) (alerts w) (console w),
                    Throw (Store (Failure m)))).
  { unfold_ops. simp_world. now rewrite Hf. }
  pose proof (handler_alerts env request action w Hp) as Ha.
  rewrite handler_db by exact Hp. rewrite Hrun in *. simp_world.
  destruct Ha as [Ha _]. repeat split; try reflexivity. exact Ha.
Qed.

Lemma failed_request_update_writes_nothing_witness :
  let env := mkEnv (Some "a1") (fun _ => 7) "t1"
               (fun c => match c with
                         | UpdateRequest => Some "offline"
                         | _ => None
                         end) in
  let w := Sample.world 1000 ReqStatus.pending [] in
  let w' := handleRequestAction env (Sample.request ReqStatus.pending)
              Action.completed w in
  user_profiles (db w') = [Sample.profile 1000]
  /\ alerts w' = [AlertFailed Action.completed (Store (Failure "offline"))].
Proof.
  intros env w w'.
  destruct (failed_request_update_writes_nothing env
              (Sample.request ReqStatus.pending) Action.completed w "offline"
              eq_refl eq_refl) as (_ & _ & Hp & _ & Ha).
  split; [exact Hp | exact Ha].
Defined.

(** X11: the request row is written first and never taken back.  Once the
    update of the request row goes through, every stored row with the id
    of the request carries the status of the action (and, for an approval
    or a rejection, a processed_at), whether the later steps go through or
    throw; rows of other ids are untouched, and no row is added or
    removed. *)
Theorem request_row_written_first env request action w :
  fault env UpdateRequest = None ->
  let w' := fst (run (transition env request action) w) in
  List.length (redemption_requests (db w'))
  = List.length (redemption_requests (db w))
  /\ forall i r, nth_error (redemption_requests (db w)) i = Some r ->
       exists r', nth_error (redemption_requests (db w')) i = Some r'
         /\ RedemptionRequest.id r' = RedemptionRequest.id r
         /\ (RedemptionRequest.id r <> RedemptionRequest.id request -> r' = r)
         /\ (RedemptionRequest.id r = RedemptionRequest.id request ->
             RedemptionRequest.status r' = Action.status action
             /\ RedemptionRequest.points_redeemed r'
                = RedemptionRequest.points_redeemed r
             /\ RedemptionRequest.user_id r' = RedemptionRequest.user_id r
             /\ (action <> Action.pending ->
                 RedemptionRequest.processed_at r'
                 = Some (now env AtProcessedAt))
             /\ (action = Action.pending ->
                 RedemptionRequest.processed_at r'
                 = RedemptionRequest.processed_at r)).
Proof.
  intros Hf w'. subst w'. rewrite transition_requests_any, Hf.
  split; [apply length_map|].
  intros i r Hr. rewrite nth_error_map, Hr. cbn [option_map].
  eexists. split; [reflexivity|]. unfold hasRequestId.
  destruct (RedemptionRequest.id r =? RedemptionRequest.id request) eqn:E.
  - apply String.eqb_eq in E. split; [reflexivity|].
    split; [intros; contradiction|]. intros _.
    split; [reflexivity|]. split; [reflexivity|]. split; [reflexivity|].
    split; [intros Ha|intros ->; reflexivity].
    destruct action; [contradiction|reflexivity|reflexivity].
  - apply String.eqb_neq in E. split; [reflexivity|].
    split; [reflexivity|intros; contradiction].
Qed.

Lemma request_row_written_first_witness :
  let env := mkEnv (Some "a1") (fun _ => 7) "t1"
               (fun c => match c with
                         | SelectProfile => Some "offline"
                         | _ => None
                         end) in
  let after := run (transition env (Sample.request ReqStatus.pending)
                      Action.completed)
                 (Sample.world 1000 ReqStatus.pending []) in
  snd after = Throw (Store (Failure "offline"))
  /\ map RedemptionRequest.status (redemption_requests (db (fst after)))
     = [ReqStatus.completed].
Proof.
  intros env after. split; [reflexivity|].
  destruct (request_row_written_first env (Sample.request ReqStatus.pending)
              Action.completed (Sample.world 1000 ReqStatus.pending [])
              eq_refl) as [_ H].
  destruct (H 0 (Sample.request ReqStatus.pending) eq_refl)
    as (r' & Hr' & _ & _ & Hst).
  destruct (Hst eq_refl) as [Hs _].
  fold after in Hr'.
  destruct (redemption_requests (db (fst after))) as [|x [|y l]] eqn:E;
    try discriminate Hr'; [|discriminate E].
  cbn in Hr'. injection Hr' as ->. cbn. now rewrite Hs.
Defined.

Lemma single_is_the_match {A} fault_ (P : A -> bool) (l : list A) (x y : A) :
  select_single fault_ P l = data x -> In y l -> P y = true -> y = x.
Proof.
  intros Hs Hin Hp. apply select_single_data in Hs as [_ Hs].
  assert (H : In y (filter P l)) by (apply filter_In; now split).
  rewrite Hs in H. destruct H as [H|[]]. now subst.
Qed.

Lemma debit_self env request current :
  hasUserId request current = true ->
  debit env request current current
  = withPoints
      (number_sub (UserProfile.available_points current)
         (RedemptionRequest.points_redeemed request))
      (number_add (UserProfile.redeemed_points current)
         (RedemptionRequest.points_redeemed request))
      (now env AtPoints) current.
Proof. intros H. unfold debit. now rewrite H. Qed.

(** X12: points are moved, never made or lost, within the safe integers.
    Through every run of the handler, whatever the action and whichever
    calls fail, every profile keeps its place, its user and its
    total_points, and the profiles of other users are not touched at all;
    when the numbers of the request and of the user's profiles are within
    the safe integers, every profile also keeps the sum of its available
    and redeemed points. *)
Theorem handler_conserves_points env request action w :
  let w' := handleRequestAction env request action w in
  map (fun p => (UserProfile.user_id p, UserProfile.total_points p))
    (user_profiles (db w'))
  = map (fun p => (UserProfile.user_id p, UserProfile.total_points p))
      (user_profiles (db w))
  /\ (forall i p, nth_error (user_profiles (db w)) i = Some p ->
        UserProfile.user_id p <> RedemptionRequest.user_id request ->
        nth_error (user_profiles (db w')) i = Some p)
  /\ ((forall p,
         In p (profilesOf (RedemptionRequest.user_id request) (db w)) ->
         withinSafeIntegers request p) ->
      map holdings (user_profiles (db w'))
      = map holdings (user_profiles (db w))).
Proof.
  intros w'. subst w'. destruct (processingAction (ui w)) eqn:Hp.
  { rewrite handler_busy by exact Hp. now repeat split. }
  rewrite handler_db by exact Hp.
  destruct (transition_profiles_any env request action w)
    as [H|(current & Hsel & Hle & _ & H)]; rewrite H; [now repeat split|].
  split; [|split].
  - rewrite map_map. apply map_ext. intros p. unfold debit.
    now destruct (hasUserId request p).
  - intros i p Hi Hu. rewrite nth_error_map, Hi. cbn. unfold debit, hasUserId.
    apply String.eqb_neq in Hu. now rewrite Hu.
  - intros Hsafe. rewrite map_map. apply map_ext_in. intros p Hin.
    unfold debit. destruct (hasUserId request p) eqn:E; [|reflexivity].
    pose proof (single_is_the_match _ _ _ _ _ Hsel Hin E) as Hpc. subst p.
    assert (Hcs : withinSafeIntegers request current).
    { apply Hsafe. unfold profilesOf. fold (hasUserId request).
      apply filter_In. now split. }
    destruct (debit_exact request current Hcs Hle) as [-> ->].
    unfold holdings. cbn. f_equal. lia.
Qed.

Lemma handler_conserves_points_witness :
  let w := Sample.world 1200 ReqStatus.pending [] in
  let w' := handleRequestAction Sample.env
              (Sample.request ReqStatus.pending) Action.completed w in
  map holdings (user_profiles (db w')) = [("u1", 1000%Z, 1200%Z)]
  /\ user_profiles (db w') = [UserProfile.mk "u1" 1000 700 500 7].
Proof.
  intros w w'. split; [|reflexivity].
  exact (proj2 (proj2 (handler_conserves_points Sample.env
                         (Sample.request ReqStatus.pending) Action.completed w))
           (sample_profile_safe 1200 ltac:(unfold MAX_SAFE_INTEGER; lia))).
Defined.

Lemma ledgerCore_amend st d at_ t : ledgerCore (amend st d at_ t) = ledgerCore t.
Proof. reflexivity. Qed.

(** X13: the ledger only grows, by one row at most, and its rows are only
    ever amended.  Through every run no transaction is removed or moved;
    every transaction that was there keeps its id, user, type, amount,
    reference and creation time; at most one row is added, only by an
    approval, and that row is the redeemed transaction of the request with
    amount = - points. *)
Theorem ledger_only_grows env request action w :
  let before := transactions (db w) in
  let after := transactions (db (handleRequestAction env request action w)) in
  map ledgerCore (firstn (List.length before) after) = map ledgerCore before
  /\ (after = firstn (List.length before) after
      \/ (action = Action.completed
          /\ after = (firstn (List.length before) after
                      ++ [newTransaction env request])%list)).
Proof.
  intros before after. subst before after.
  destruct (processingAction (ui w)) eqn:Hp.
  { rewrite handler_busy by exact Hp. rewrite firstn_all. auto. }
  rewrite handler_db by exact Hp.
  assert (H : let after := transactions
                             (db (fst (run (transition env request action) w))) in
              after = transactions (db w)
              \/ (exists g, (forall t, ledgerCore (g t) = ledgerCore t)
                            /\ after = map g (transactions (db w)))
              \/ (action = Action.completed
                  /\ after = (transactions (db w)
                              ++ [newTransaction env request])%list)).
  { destruct action.
    - left. run_all; reflexivity.
    - destruct (completion_transactions env request w)
        as [H|[(t & _ & H)|(_ & H)]]; [now left| |now right; right].
      right; left. exists (completedAt env request t). split; [|exact H].
      intros x. unfold completedAt. now destruct (_ =? _).
    - destruct (rejection_transactions env request w) as [_ [H|H]];
        [now left|].
      right; left. exists (failedAt env request). split; [|exact H].
      intros x. unfold failedAt. now destruct (isRedeemedFor _ x). }
  cbv zeta in H. destruct H as [H|[(g & Hg & H)|(Ha & H)]]; rewrite H.
  - rewrite firstn_all. auto.
  - rewrite <- (length_map g (transactions (db w))). rewrite firstn_all.
    split; [|now left].
    rewrite map_map. apply map_ext. exact Hg.
  - rewrite firstn_app, firstn_all, Nat.sub_diag. cbn [firstn].
    rewrite app_nil_r. split; [reflexivity|]. right. now split.
Qed.

(** X14: [checkAdminStatus] answers true exactly when there is a signed-in
    user, the query of [admins] does not fail, and [admins] holds exactly
    one row with the user's id; in every other case (no user, a failed
    query, no row, or the id listed more than once) it answers false.  It
    never throws and changes nothing. *)
Theorem checkAdminStatus_exactly_one_row env w :
  exists b,
    run (checkAdminStatus env) w = (w, Ok b)
    /\ (b = true <->
        exists user,
          auth_user env = Some user
          /\ fault env SelectAdmin = None
          /\ List.length (filter (fun a => a =? user) (admins (db w))) = 1).
Proof.
  unfold run, checkAdminStatus, bind, get, ret, select_single.
  destruct (auth_user env) as [user|].
  2:{ exists false. split; [reflexivity|].
      split; [discriminate|]. intros (u & H & _). discriminate. }
  destruct (fault env SelectAdmin) as [m|].
  { exists false. split; [reflexivity|].
    split; [discriminate|]. intros (u & _ & H & _). discriminate. }
  destruct (filter _ (admins (db w))) as [|a [|b l]] eqn:E.
  - exists false. split; [reflexivity|]. split; [discriminate|].
    intros (u & [= <-] & _ & H). rewrite E in H. discriminate.
  - exists true. split; [reflexivity|]. split; [|reflexivity].
    intros _. exists user. rewrite E. auto.
  - exists false. split; [reflexivity|]. split; [discriminate|].
    intros (u & [= <-] & _ & H). rewrite E in H. discriminate.
Qed.

Lemma checkAdminStatus_exactly_one_row_witness :
  run (checkAdminStatus Sample.env)
    (mkWorld (mkDb ["a1"; "a1"] [] [] []) (mkUi [] [] None false false) [] [])
  = (mkWorld (mkDb ["a1"; "a1"] [] [] []) (mkUi [] [] None false false) [] [],
     Ok false)
  /\ snd (run (checkAdminStatus Sample.env)
            (Sample.world 1000 ReqStatus.pending [])) = Ok true.
Proof.
  split; [reflexivity|].
  destruct (checkAdminStatus_exactly_one_row Sample.env
              (Sample.world 1000 ReqStatus.pending [])) as (b & Hrun & Hb).
  rewrite Hrun. cbn [snd]. f_equal. apply Hb. exists "a1". now repeat split.
Defined.

(** *** The fetches *)

Lemma insert_desc_perm {A} (key : A -> nat) (x : A) (l : list A) :
  Permutation (insert_desc key x l) (x :: l).
Proof.
  induction l as [|y l IH]; cbn; [reflexivity|].
  destruct (key y <=? key x)%nat; [reflexivity|].
  rewrite IH. apply perm_swap.
Qed.

Lemma order_desc_perm {A} (key : A -> nat) (l : list A) :
  Permutation (order_desc key l) l.
Proof.
  induction l as [|x l IH]; cbn; [reflexivity|].
  rewrite insert_desc_perm. now constructor.
Qed.

Lemma insert_desc_sorted {A} (key : A -> nat) (x : A) (l : list A) :
  StronglySorted (laterFirst key) l ->
  StronglySorted (laterFirst key) (insert_desc key x l).
Proof.
  induction l as [|y l IH]; intros Hs; cbn.
  - constructor; constructor.
  - inversion Hs as [|? ? Hl Hy]; subst.
    destruct (key y <=? key x)%nat eqn:E.
    + apply Nat.leb_le in E. constructor; [exact Hs|].
      constructor; [exact E|].
      eapply Forall_impl; [|exact Hy]. unfold laterFirst. intros; lia.
    + apply Nat.leb_gt in E. constructor; [now apply IH|].
      eapply Permutation_Forall;
        [symmetry; apply insert_desc_perm|].
      constructor; [unfold laterFirst; lia | exact Hy].
Qed.

Lemma order_desc_sorted {A} (key : A -> nat) (l : list A) :
  StronglySorted (laterFirst key) (order_desc key l).
Proof.
  induction l as [|x l IH]; cbn; [constructor|].
  now apply insert_desc_sorted.
Qed.

Lemma firstn_sorted {A} (R : A -> A -> Prop) (n : nat) (l : list A) :
  StronglySorted R l -> StronglySorted R (firstn n l).
Proof.
  revert l. induction n as [|n IH]; intros [|x l] Hs; cbn;
    try constructor.
  - inversion Hs; subst. now apply IH.
  - inversion Hs as [|? ? _ Hx]; subst.
    apply Forall_forall. intros y Hy. apply firstn_subset in Hy.
    revert y Hy. now apply Forall_forall.
Qed.

(** X15: what [fetchRedemptionRequests] does to the screen.  It never
    writes to the store and, of the screen state, touches only the list of
    requests (the history, the selection, the modal and the busy flag are
    as they were).  For a session that [checkAdminStatus] refuses it
    empties the list, shows 'Access Denied' and ends normally; when its
    query fails it keeps the list, shows the load error and rethrows;
    otherwise the list becomes the first 50 of the stored requests put
    latest first: the list followed by the rows it leaves out is a
    rearrangement of the stored rows in which no row comes before a later
    one. *)
Theorem fetchRedemptionRequests_outcomes env w :
  let w' := fst (run (fetchRedemptionRequests env) w) in
  let r := snd (run (fetchRedemptionRequests env) w) in
  let shown := redemptionRequests (ui w') in
  db w' = db w
  /\ transactionHistory (ui w') = transactionHistory (ui w)
  /\ selectedRequest (ui w') = selectedRequest (ui w)
  /\ modalVisible (ui w') = modalVisible (ui w)
  /\ processingAction (ui w') = processingAction (ui w)
  /\ match snd (run (checkAdminStatus env) w) with
     | Ok true =>
         match fault env SelectRequests with
         | Some m =>
             r = Throw (Store (Failure m))
             /\ shown = redemptionRequests (ui w)
             /\ alerts w'
                = (alerts w
                   ++ [AlertText "Error"
                         "Failed to load redemption requests. Please try again."])%list
         | None =>
             r = Ok tt
             /\ alerts w' = alerts w
             /\ List.length shown
                = Nat.min 50 (List.length (redemption_requests (db w)))
             /\ exists rest,
                  Permutation (shown ++ rest) (redemption_requests (db w))
                  /\ StronglySorted (laterFirst RedemptionRequest.created_at)
                       (shown ++ rest)
         end
     | _ =>
         r = Ok tt
         /\ shown = []
         /\ alerts w'
            = (alerts w
               ++ [AlertText "Access Denied"
                     "You do not have admin privileges"])%list
     end.
Proof.
  intros w' r shown. subst w' r shown.
  destruct w as [d u al c]. unfold_screen.
  unfold run, bind, ret, throw, get. simp_world.
  destruct (auth_user env) as [user|]; simp_world;
    [|repeat split; reflexivity].
  destruct (select_single (fault env SelectAdmin) _ (admins d)); simp_world;
    [|repeat split; reflexivity].
  destruct (fault env SelectRequests) as [m|]; simp_world;
    [repeat split; reflexivity|].
  split; [reflexivity|]. split; [reflexivity|]. split; [reflexivity|].
  split; [reflexivity|]. split; [reflexivity|].
  cbn [redemptionRequests].
  split; [reflexivity|]. split; [reflexivity|].
  split; [rewrite length_firstn;
          now rewrite (Permutation_length (order_desc_perm _ _))|].
  exists (skipn 50 (order_desc RedemptionRequest.created_at
                      (redemption_requests d))).
  rewrite firstn_skipn. split; [apply order_desc_perm|apply order_desc_sorted].
Qed.

Lemma fetchRedemptionRequests_outcomes_witness :
  let w := Sample.world 1000 ReqStatus.pending [] in
  (exists rest,
     Permutation
       (redemptionRequests
          (ui (fst (run (fetchRedemptionRequests Sample.env) w))) ++ rest)
       [Sample.request ReqStatus.pending])
  /\ redemptionRequests
       (ui (fst (run (fetchRedemptionRequests Sample.env_not_admin) w))) = [].
Proof.
  intros w. split.
  - pose proof (fetchRedemptionRequests_outcomes Sample.env w) as H.
    cbv zeta in H. destruct H as (_ & _ & _ & _ & _ & H).
    change (snd (run (checkAdminStatus Sample.env) w)) with (@Ok bool true) in H.
    change (fault Sample.env SelectRequests) with (@None string) in H.
    cbv iota in H. destruct H as (_ & _ & _ & rest & H & _).
    exists rest. exact H.
  - pose proof (fetchRedemptionRequests_outcomes Sample.env_not_admin w) as H.
    cbv zeta in H. destruct H as (_ & _ & _ & _ & _ & H).
    change (snd (run (checkAdminStatus Sample.env_not_admin) w))
      with (@Ok bool false) in H.
    cbv iota in H. exact (proj1 (proj2 H)).
Defined.

(** X16: rejecting again.  Of two rejections of the same request that go
    through, the later decides every redeemed transaction of the request
    (status failed, its description and updated_at), exactly as if it had
    run alone; so repeating a rejection changes nothing but the times. *)
Theorem rejection_twice_is_once env1 env2 request w :
  let once := run (transition env1 request Action.rejected) w in
  let twice := run (transition env2 request Action.rejected) (fst once) in
  snd once = Ok tt -> snd twice = Ok tt ->
  transactions (db (fst twice))
  = map (failedAt env2 request) (transactions (db w))
  /\ user_profiles (db (fst twice)) = user_profiles (db w).
Proof.
  intros once twice H1 H2. subst once twice.
  destruct (rejection_transactions env2 request
              (fst (run (transition env1 request Action.rejected) w)))
    as [Hb _].
  destruct (rejection_transactions env1 request w) as [Ha _].
  rewrite (Hb H2), (Ha H1), map_map. split.
  - apply map_ext. intros t. unfold failedAt.
    destruct (isRedeemedFor (RedemptionRequest.id request) t) eqn:E.
    + rewrite isRedeemedFor_amend, E. reflexivity.
    + now rewrite E.
  - destruct (transition_profiles_any env2 request Action.rejected
                (fst (run (transition env1 request Action.rejected) w)))
      as [H|(? & _ & _ & Hc & _)]; [|discriminate].
    rewrite H.
    destruct (transition_profiles_any env1 request Action.rejected w)
      as [H'|(? & _ & _ & Hc & _)]; [exact H'|discriminate].
Qed.

Lemma rejection_twice_is_once_witness :
  let w := Sample.world 1000 ReqStatus.pending [Sample.entry TxStatus.pending] in
  let once := run (transition Sample.env (Sample.request ReqStatus.pending)
                     Action.rejected) w in
  let twice := run (transition Sample.env (Sample.request ReqStatus.pending)
                      Action.rejected) (fst once) in
  transactions (db (fst twice)) = transactions (db (fst once)).
Proof.
  intros w once twice. subst once twice.
  rewrite (proj1 (rejection_twice_is_once Sample.env Sample.env
                    (Sample.request ReqStatus.pending) w eq_refl eq_refl)).
  reflexivity.
Defined.

Lemma hasUserId_withPoints request a b c p :
  hasUserId request (withPoints a b c p) = hasUserId request p.
Proof. reflexivity. Qed.

(** X17: an approval run again debits again.  When two approvals of the
    same request go through one after the other, with numbers within the
    safe integers, the one profile of the user has lost twice the points
    of the request from available_points and gained twice as many in
    redeemed_points; the second can only go through when the balance
    covered both. *)
Theorem approval_replayed_debits_again env1 env2 request w w1 w2 :
  run (transition env1 request Action.completed) w = (w1, Ok tt) ->
  run (transition env2 request Action.completed) w1 = (w2, Ok tt) ->
  (forall p, In p (profilesOf (RedemptionRequest.user_id request) (db w)) ->
     (0 <= RedemptionRequest.points_redeemed request
      /\ 0 <= UserProfile.redeemed_points p
      /\ UserProfile.available_points p <= MAX_SAFE_INTEGER
      /\ UserProfile.redeemed_points p
         + 2 * RedemptionRequest.points_redeemed request
         <= MAX_SAFE_INTEGER)%Z) ->
  exists current after,
    profilesOf (RedemptionRequest.user_id request) (db w) = [current]
    /\ profilesOf (RedemptionRequest.user_id request) (db w2) = [after]
    /\ UserProfile.available_points after
       = (UserProfile.available_points current
          - 2 * RedemptionRequest.points_redeemed request)%Z
    /\ UserProfile.redeemed_points after
       = (UserProfile.redeemed_points current
          + 2 * RedemptionRequest.points_redeemed request)%Z
    /\ UserProfile.total_points after = UserProfile.total_points current
    /\ (2 * RedemptionRequest.points_redeemed request
        <= UserProfile.available_points current)%Z.
Proof.
  intros H1 H2 Hsafe.
  destruct (completion_ok env1 request w w1 H1)
    as (current & Hsel1 & Hle1 & _ & _ & Hprof1 & _).
  destruct (completion_ok env2 request w1 w2 H2)
    as (cur2 & Hsel2 & Hle2 & _ & _ & Hprof2 & _).
  apply select_single_data in Hsel1 as [_ Hsel1].
  apply select_single_data in Hsel2 as [_ Hsel2].
  assert (Hcur : hasUserId request current = true).
  { assert (Hin : In current (filter (hasUserId request) (user_profiles (db w))))
      by (rewrite Hsel1; now left).
    now apply filter_In in Hin as [_ Hin]. }
  assert (Hb : (0 <= RedemptionRequest.points_redeemed request
                /\ 0 <= UserProfile.redeemed_points current
                /\ UserProfile.available_points current <= MAX_SAFE_INTEGER
                /\ UserProfile.redeemed_points current
                   + 2 * RedemptionRequest.points_redeemed request
                   <= MAX_SAFE_INTEGER)%Z).
  { apply Hsafe. unfold profilesOf. fold (hasUserId request).
    rewrite Hsel1. now left. }
  destruct Hb as (Hb0 & Hb1 & Hb2 & Hb3).
  destruct (debit_exact request current) as [Hs1 Ha1];
    [unfold withinSafeIntegers; lia | exact Hle1 |].
  rewrite Hprof1 in Hsel2.
  rewrite filter_map_stable in Hsel2 by (intros; apply hasUserId_debit).
  rewrite Hsel1 in Hsel2. cbn [map] in Hsel2. injection Hsel2 as <-.
  rewrite (debit_self env1 request current Hcur) in *.
  rewrite Hs1, Ha1 in *.
  set (d1 := withPoints
               (UserProfile.available_points current
                - RedemptionRequest.points_redeemed request)%Z
               (UserProfile.redeemed_points current
                + RedemptionRequest.points_redeemed request)%Z
               (now env1 AtPoints) current) in *.
  assert (Hd1 : hasUserId request d1 = true) by exact Hcur.
  cbn [d1 withPoints UserProfile.available_points] in Hle2.
  destruct (debit_exact request d1) as [Hs2 Ha2];
    [unfold withinSafeIntegers; cbn; lia | cbn; lia |].
  exists current, (debit env2 request d1 d1).
  split; [exact Hsel1|].
  split.
  { unfold profilesOf. fold (hasUserId request). rewrite Hprof2, Hprof1.
    rewrite !filter_map_stable by (intros; apply hasUserId_debit).
    rewrite Hsel1. cbn [map].
    now rewrite (debit_self env1 request current Hcur), Hs1, Ha1. }
  rewrite (debit_self env2 request d1 Hd1), Hs2, Ha2.
  subst d1.
  cbn [withPoints UserProfile.available_points UserProfile.redeemed_points
       UserProfile.total_points] in *.
  repeat split; lia.
Qed.

Lemma approval_replayed_debits_again_witness :
  let r := Sample.request ReqStatus.pending in
  let w := Sample.world 1200 ReqStatus.pending [] in
  let w1 := fst (run (transition Sample.env r Action.completed) w) in
  let w2 := fst (run (transition Sample.env r Action.completed) w1) in
  profilesOf "u1" (db w2) = [UserProfile.mk "u1" 1000 200 1000 7]
  /\ exists current after,
       profilesOf "u1" (db w) = [current]
       /\ profilesOf "u1" (db w2) = [after]
       /\ UserProfile.available_points after = 200%Z
       /\ UserProfile.redeemed_points after = 1000%Z.
Proof.
  intros r w w1 w2. split; [reflexivity|].
  destruct (approval_replayed_debits_again Sample.env Sample.env r w w1 w2
              eq_refl eq_refl)
    as (current & after & Hc & Ha & Hav & Hre & _).
  { intros p [<-|[]]. unfold MAX_SAFE_INTEGER. cbn. lia. }
  exists current, after. split; [exact Hc|]. split; [exact Ha|].
  injection Hc as <-. split; [exact Hav | exact Hre].
Defined.

(** X18: a debit that is reported as a failure.  When the request row and
    the balance have been written and the lookup of the transaction then
    fails, the handler throws: it shows the failure alert and records no
    transaction, while the debit and the completed status stay in the
    store. *)
Theorem failed_lookup_keeps_the_debit env request w current m :
  processingAction (ui w) = false ->
  fault env UpdateRequest = None ->
  select_single (fault env SelectProfile) (hasUserId request)
    (user_profiles (db w)) = data current ->
  (RedemptionRequest.points_redeemed request
   <= UserProfile.available_points current)%Z ->
  fault env UpdatePoints = None ->
  fault env CheckTransaction = Some m ->
  let w' := handleRequestAction env request Action.completed w in
  alerts w'
  = (alerts w ++ [AlertFailed Action.completed (Store (Failure m))])%list
  /\ transactions (db w') = transactions (db w)
  /\ user_profiles (db w')
     = map (debit env request current) (user_profiles (db w))
  /\ redemption_requests (db w')
     = map (fun r => if hasRequestId request r
                     then updateData env Action.completed r else r)
         (redemption_requests (db w)).
Proof.
  intros Hp Hreq Hsel Hle Hpts Hchk w'. subst w'.
  apply Z.ltb_ge in Hle.
  assert (Hrun : snd (run (transition env request Action.completed) w)
                 = Throw (Store (Failure m))
                 /\ transactions
                      (db (fst (run (transition env request Action.completed) w)))
                    = transactions (db w)
                 /\ user_profiles
                      (db (fst (run (transition env request Action.completed) w)))
                    = map (debit env request current) (user_profiles (db w))).
  { unfold_ops. unfold select_single at 2. simp_world. rewrite Hreq. simp_world.
    rewrite Hsel. simp_world. rewrite Hle, Hpts. simp_world.
    rewrite Hchk. simp_world. repeat split; reflexivity. }
  destruct Hrun as (Hr & Ht & Hu).
  pose proof (handler_alerts env request Action.completed w Hp) as Ha.
  rewrite Hr in Ha. destruct Ha as [Ha _].
  rewrite handler_db by exact Hp.
  split; [exact Ha|]. split; [exact Ht|]. split; [exact Hu|].
  now rewrite transition_requests_any, Hreq.
Qed.

Lemma failed_lookup_keeps_the_debit_witness :
  let env := mkEnv (Some "a1") (fun _ => 7) "t1"
               (fun c => match c with
                         | CheckTransaction => Some "offline"
                         | _ => None
                         end) in
  let w := Sample.world 1000 ReqStatus.pending [] in
  let w' := handleRequestAction env (Sample.request ReqStatus.pending)
              Action.completed w in
  alerts w' = [AlertFailed Action.completed (Store (Failure "offline"))]
  /\ user_profiles (db w') = [UserProfile.mk "u1" 1000 500 500 7].
Proof.
  intros env w w'.
  destruct (failed_lookup_keeps_the_debit env
              (Sample.request ReqStatus.pending) w (Sample.profile 1000)
              "offline" eq_refl eq_refl eq_refl ltac:(cbn; lia)
              eq_refl eq_refl) as (Ha & _ & Hu & _).
  split; [exact Ha | exact Hu].
Defined.

(* ===================================================================== *)
(** ** Part 7: who is let in *)
(* ===================================================================== *)

Lemma filter_eqb_In (user : string) (table : list string) :
  In user table ->
  exists rest, filter (fun row => row =? user) table = user :: rest.
Proof.
  induction table as [|x l IH]; [intros []|]. cbn.
  destruct (x =? user) eqn:E.
  - apply String.eqb_eq in E. subst x. eauto.
  - intros [->|H]; [now rewrite String.eqb_refl in E|]. now apply IH.
Qed.

Lemma filter_eqb_notIn (user : string) (table : list string) :
  ~ In user table -> filter (fun row => row =? user) table = [].
Proof.
  induction table as [|x l IH]; [reflexivity|]. cbn. intros H.
  destruct (x =? user) eqn:E.
  - apply String.eqb_eq in E. subst x. exfalso. apply H. now left.
  - apply IH. intros Hin. apply H. now right.
Qed.

(** X19: what an auth event leads to.  After the listener has run, the
    loading has ended.  An event without a user shows the login screen.
    An event for a user listed in [admins], with the query going through,
    makes that user the admin and shows the main app.  An event for a user
    who is not listed, or whose query fails, leaves the admin as it was:
    it does not clear an admin set before. *)
Theorem auth_event_outcomes (session : option string)
  (failure : option string) (table : list string) (a : AuthState) :
  let a' := onAuthStateChange session failure table a in
  loading a' = false
  /\ (session = None -> AppNavigator a' = Login)
  /\ (forall user, session = Some user -> failure = None ->
        In user table -> admin a' = Some user /\ AppNavigator a' = Main)
  /\ (forall user, session = Some user ->
        failure <> None \/ ~ In user table ->
        admin a' = admin a).
Proof.
  intros a'. subst a'. split; [|split; [|split]].
  - destruct session; [|reflexivity]. unfold onAuthStateChange, fetchAdminProfile.
    destruct failure; [reflexivity|]. now destruct (filter _ table).
  - now intros ->.
  - intros user -> -> Hin. unfold onAuthStateChange, fetchAdminProfile.
    destruct (filter_eqb_In user table Hin) as [rest ->]. now split.
  - intros user -> [Hf|Hn]; unfold onAuthStateChange, fetchAdminProfile.
    + destruct failure; [reflexivity|contradiction].
    + destruct failure; [reflexivity|]. now rewrite filter_eqb_notIn.
Qed.

Lemma auth_event_outcomes_witness :
  AppNavigator (onAuthStateChange (Some "a1") None ["a1"] (mkAuth None true))
  = Main
  /\ admin (onAuthStateChange (Some "u9") None ["a1"] (mkAuth (Some "a1") false))
     = Some "a1".
Proof.
  split.
  - apply (proj1 (proj2 (proj2 (auth_event_outcomes (Some "a1") None ["a1"]
                                  (mkAuth None true)))) "a1" eq_refl eq_refl).
    now left.
  - apply (proj2 (proj2 (proj2 (auth_event_outcomes (Some "u9") None ["a1"]
                                  (mkAuth (Some "a1") false)))) "u9" eq_refl).
    right. intros [H|[]]. discriminate H.
Defined.

(** X20: the two admin checks against each other.  Whoever
    [checkAdminStatus] accepts is made the admin by [fetchAdminProfile]
    when its query goes through, and is shown the main app.  The converse
    fails for an id that [admins] lists more than once: the auth context
    takes the first row, the transactions screen refuses the session. *)
Theorem checks_agree_up_to_duplicates env w :
  (snd (run (checkAdminStatus env) w) = Ok true ->
   exists user,
     auth_user env = Some user
     /\ forall a,
          admin (fetchAdminProfile None user (admins (db w)) a) = Some user
          /\ AppNavigator (fetchAdminProfile None user (admins (db w)) a)
             = Main)
  /\ (forall user,
        auth_user env = Some user ->
        2 <= List.length (filter (fun row => row =? user) (admins (db w))) ->
        snd (run (checkAdminStatus env) w) = Ok false
        /\ forall a,
             admin (fetchAdminProfile None user (admins (db w)) a)
             = Some user).
Proof.
  split.
  - unfold run, checkAdminStatus, bind, get, ret, select_single.
    destruct (auth_user env) as [user|]; [|discriminate].
    destruct (fault env SelectAdmin); [discriminate|].
    cbn [fst snd db].
    destruct (filter _ (admins (db w))) as [|x [|y l]] eqn:E;
      try discriminate.
    intros _. exists user. split; [reflexivity|]. intros a.
    unfold fetchAdminProfile, AppNavigator. rewrite E. cbn.
    assert (Hx : In x (filter (fun a0 => a0 =? user) (admins (db w))))
      by (rewrite E; now left).
    apply filter_In in Hx as [_ Hx]. apply String.eqb_eq in Hx. now subst x.
  - intros user Hu Hlen. split.
    + unfold run, checkAdminStatus, bind, get, ret, select_single.
      rewrite Hu. destruct (fault env SelectAdmin); [reflexivity|].
      cbn [fst snd db].
      destruct (filter _ (admins (db w))) as [|x [|y l]];
        [reflexivity|cbn in Hlen; lia|reflexivity].
    + intros a. unfold fetchAdminProfile.
      destruct (filter _ (admins (db w))) as [|x l] eqn:E;
        [cbn in Hlen; lia|].
      assert (Hx : In x (filter (fun row => row =? user) (admins (db w))))
        by (rewrite E; now left).
      apply filter_In in Hx as [_ Hx]. apply String.eqb_eq in Hx. now subst x.
Qed.

Lemma checks_agree_up_to_duplicates_witness :
  let w := mkWorld (mkDb ["a1"; "a1"] [] [] [])
             (mkUi [] [] None false false) [] [] in
  snd (run (checkAdminStatus Sample.env) w) = Ok false
  /\ admin (fetchAdminProfile None "a1" (admins (db w)) (mkAuth None true))
     = Some "a1".
Proof.
  intros w.
  destruct (proj2 (checks_agree_up_to_duplicates Sample.env w) "a1" eq_refl
              ltac:(cbn; lia)) as [H1 H2].
  split; [exact H1 | exact (H2 _)].
Defined.

(* ===================================================================== *)
(** ** Part 8: the analytics service *)
(* ===================================================================== *)

Lemma countIn_cons (key k c : nat) (rest : list (nat * nat)) :
  countIn key ((k, c) :: rest)
  = if (k =? key)%nat then c else countIn key rest.
Proof. unfold countIn. cbn. now destruct (k =? key)%nat. Qed.

Lemma countIn_above (key : nat) (counts : list (nat * nat)) :
  Forall (fun k => key < k) (map fst counts) -> countIn key counts = 0.
Proof.
  induction counts as [|[k c] rest IH]; [reflexivity|].
  cbn [map fst]. intros H. inversion H; subst. rewrite countIn_cons.
  destruct (k =? key)%nat eqn:E; [apply Nat.eqb_eq in E; lia|]. now apply IH.
Qed.

Lemma increment_keys (key : nat) (counts : list (nat * nat)) (k : nat) :
  In k (map fst (increment key counts)) ->
  k = key \/ In k (map fst counts).
Proof.
  induction counts as [|[k0 c] rest IH]; cbn [increment].
  - cbn. intros [<-|[]]. now left.
  - destruct (key =? k0)%nat eqn:E; [cbn [map fst In]; tauto|].
    destruct (key <? k0)%nat; cbn [map fst In]; [intuition auto|].
    intros [<-|H]; [tauto|]. destruct (IH H); tauto.
Qed.

Lemma increment_ascend (key : nat) (counts : list (nat * nat)) :
  keysAscend counts -> keysAscend (increment key counts).
Proof.
  unfold keysAscend. induction counts as [|[k c] rest IH]; cbn [increment].
  - intros _. cbn. constructor; constructor.
  - cbn [map fst]. intros Hs. inversion Hs as [|? ? Hrest Hk]; subst.
    destruct (key =? k)%nat eqn:E; [exact Hs|].
    destruct (key <? k)%nat eqn:L.
    + apply Nat.ltb_lt in L. cbn [map fst]. constructor; [exact Hs|].
      constructor; [exact L|].
      eapply Forall_impl; [|exact Hk]. intros; cbv beta in *; lia.
    + apply Nat.ltb_ge in L. apply Nat.eqb_neq in E. cbn [map fst].
      constructor; [now apply IH|].
      apply Forall_forall. intros x Hx.
      apply increment_keys in Hx as [->|Hx]; [lia|].
      revert x Hx. now apply Forall_forall.
Qed.

Lemma increment_countIn (key key' : nat) (counts : list (nat * nat)) :
  keysAscend counts ->
  countIn key' (increment key counts)
  = countIn key' counts + (if (key' =? key)%nat then 1 else 0).
Proof.
  unfold keysAscend. induction counts as [|[k c] rest IH]; cbn [increment].
  - intros _. rewrite countIn_cons. rewrite Nat.eqb_sym.
    now destruct (key' =? key)%nat.
  - cbn [map fst]. intros Hs. inversion Hs as [|? ? Hrest Hk]; subst.
    destruct (key =? k)%nat eqn:E.
    + apply Nat.eqb_eq in E. subst k. rewrite !countIn_cons.
      rewrite (Nat.eqb_sym key key').
      destruct (key' =? key)%nat; lia.
    + apply Nat.eqb_neq in E. destruct (key <? k)%nat eqn:L.
      * apply Nat.ltb_lt in L. rewrite !countIn_cons.
        rewrite (Nat.eqb_sym key key').
        destruct (key' =? key)%nat eqn:E'; [|lia].
        apply Nat.eqb_eq in E'. subst key'.
        destruct (k =? key)%nat eqn:E2; [apply Nat.eqb_eq in E2; lia|].
        rewrite countIn_above; [reflexivity|].
        eapply Forall_impl; [|exact Hk]. intros; cbv beta in *; lia.
      * rewrite !countIn_cons, (IH Hrest).
        destruct (k =? key')%nat eqn:E2; [|reflexivity].
        apply Nat.eqb_eq in E2. subst key'.
        destruct (k =? key)%nat eqn:E3; [apply Nat.eqb_eq in E3; lia|lia].
Qed.

Lemma increment_positive (key : nat) (counts : list (nat * nat)) :
  Forall (fun e => 0 < snd e) counts ->
  Forall (fun e => 0 < snd e) (increment key counts).
Proof.
  induction counts as [|[k c] rest IH]; cbn [increment]; intros H.
  - constructor; [cbn; lia|constructor].
  - inversion H; subst. cbn [snd] in *.
    destruct (key =? k)%nat; [constructor; [cbn; lia|assumption]|].
    destruct (key <? k)%nat; [constructor; [cbn; lia|assumption]|].
    constructor; [assumption|now apply IH].
Qed.

(** The grouping counts every reading once, under its key. *)
Lemma tally_counts (keys : list nat) :
  keysAscend (tally keys)
  /\ Forall (fun e => 0 < snd e) (tally keys)
  /\ forall key, countIn key (tally keys) = occurrences key keys.
Proof.
  unfold tally, occurrences.
  assert (H : forall acc,
             keysAscend acc -> Forall (fun e => 0 < snd e) acc ->
             let r := fold_left (fun counts key => increment key counts)
                        keys acc in
             keysAscend r /\ Forall (fun e => 0 < snd e) r
             /\ forall key, countIn key r
                            = countIn key acc + count_occ Nat.eq_dec keys key).
  { induction keys as [|k keys IH]; intros acc Ha Hp; cbn [fold_left].
    - repeat split; auto.
    - destruct (IH (increment k acc) (increment_ascend k acc Ha)
                  (increment_positive k acc Hp)) as (H1 & H2 & H3).
      split; [exact H1|]. split; [exact H2|]. intros key.
      rewrite H3, increment_countIn by exact Ha. cbn [count_occ].
      destruct (Nat.eq_dec k key) as [->|Hne].
      + rewrite Nat.eqb_refl. lia.
      + destruct (key =? k)%nat eqn:E; [apply Nat.eqb_eq in E; lia|lia]. }
  destruct (H [] ltac:(constructor) ltac:(constructor)) as (H1 & H2 & H3).
  split; [exact H1|]. split; [exact H2|]. intros key. now rewrite H3.
Qed.

Lemma countIn_entry (counts : list (nat * nat)) (e : nat * nat) :
  keysAscend counts -> In e counts -> countIn (fst e) counts = snd e.
Proof.
  unfold keysAscend. induction counts as [|[k c] rest IH]; [intros _ []|].
  cbn [map fst]. intros Hs Hin. inversion Hs as [|? ? Hrest Hk]; subst.
  rewrite countIn_cons. destruct Hin as [<-|Hin].
  - cbn. now rewrite Nat.eqb_refl.
  - destruct (k =? fst e)%nat eqn:E; [|now apply IH].
    apply Nat.eqb_eq in E. exfalso.
    assert (Hlt : k < fst e).
    { rewrite Forall_map, Forall_forall in Hk. exact (Hk e Hin). }
    lia.
Qed.

Lemma countIn_found (key : nat) (counts : list (nat * nat)) :
  0 < countIn key counts -> In (key, countIn key counts) counts.
Proof.
  unfold countIn. destruct (find _ counts) as [[k c]|] eqn:E; [|cbn; lia].
  intros _. apply find_some in E as [Hin Hk]. cbn in Hk.
  apply Nat.eqb_eq in Hk. now subst k.
Qed.

Lemma before_in_ascending (l1 l2 : list (nat * nat)) (r e : nat * nat) :
  keysAscend (l1 ++ r :: l2) -> In e (l1 ++ r :: l2) -> fst e < fst r ->
  In e l1.
Proof.
  unfold keysAscend. induction l1 as [|x l1 IH]; cbn [app map].
  - intros Hs [<-|Hin] Hlt; [lia|]. exfalso.
    inversion Hs as [|? ? _ Hr]; subst.
    assert (fst r < fst e).
    { rewrite Forall_map, Forall_forall in Hr. exact (Hr e Hin). }
    lia.
  - intros Hs [<-|Hin] Hlt; [now left|]. right.
    inversion Hs; subst. now apply IH.
Qed.

(** The scan keeps the first entry with the greatest count. *)
Lemma scan_keeps_first_greatest (counts : list (nat * nat))
  (best : nat * nat) :
  (scanFrom best counts = best /\ forall e, In e counts -> snd e <= snd best)
  \/ (exists l1 l2, counts = (l1 ++ scanFrom best counts :: l2)%list
        /\ snd best < snd (scanFrom best counts)
        /\ (forall e, In e l1 -> snd e < snd (scanFrom best counts))
        /\ (forall e, In e l2 -> snd e <= snd (scanFrom best counts))).
Proof.
  revert best. unfold scanFrom.
  induction counts as [|e l IH]; intros best; cbn [fold_left].
  - left. split; [reflexivity|intros e []].
  - destruct (snd best <? snd e)%nat eqn:E.
    + apply Nat.ltb_lt in E.
      destruct (IH e) as [[Hr Hall]|(l1 & l2 & Hl & Hlt & H1 & H2)].
      * right. exists [], l. rewrite Hr. cbn [app].
        split; [reflexivity|]. split; [exact E|].
        split; [intros ? []|exact Hall].
      * right. exists (e :: l1), l2.
        split; [cbn [app]; now f_equal|]. split; [lia|].
        split; [intros x [<-|Hx]; [exact Hlt|now apply H1]|exact H2].
    + apply Nat.ltb_ge in E.
      destruct (IH best) as [[Hr Hall]|(l1 & l2 & Hl & Hlt & H1 & H2)].
      * left. split; [exact Hr|]. intros x [<-|Hx]; [exact E|now apply Hall].
      * right. exists (e :: l1), l2.
        split; [cbn [app]; now f_equal|]. split; [exact Hlt|].
        split; [intros x [<-|Hx]; [lia|now apply H1]|exact H2].
Qed.

(** The key chosen among readings: it occurs, no key occurs more often,
    and every smaller key occurs less often. *)
Lemma mostFrequent_of_tally (keys : list nat) :
  keys <> [] ->
  let chosen := fst (mostFrequent (tally keys)) in
  0 < occurrences chosen keys
  /\ (forall k, occurrences k keys <= occurrences chosen keys)
  /\ (forall k, k < chosen -> occurrences k keys < occurrences chosen keys).
Proof.
  intros Hne chosen.
  destruct (tally_counts keys) as (Hasc & Hpos & Hcount).
  assert (Hsome : exists e, In e (tally keys)).
  { destruct keys as [|k keys]; [contradiction|].
    exists (k, countIn k (tally (k :: keys))). apply countIn_found.
    rewrite Hcount. unfold occurrences. cbn.
    destruct (Nat.eq_dec k k); [lia|contradiction]. }
  pose proof (scan_keeps_first_greatest (tally keys) (0, 0)) as Hscan.
  change (scanFrom (0, 0) (tally keys)) with (mostFrequent (tally keys))
    in Hscan.
  destruct Hscan as [[_ Hall]|(l1 & l2 & Hl & Hlt & H1 & H2)].
  { exfalso. destruct Hsome as [e He].
    pose proof (Hall e He) as Hle. cbn in Hle.
    rewrite Forall_forall in Hpos. specialize (Hpos e He). lia. }
  set (r := mostFrequent (tally keys)) in *.
  assert (Hr : In r (tally keys)) by (rewrite Hl; apply in_elt).
  assert (Hrc : occurrences chosen keys = snd r).
  { rewrite <- Hcount. subst chosen. now apply countIn_entry. }
  assert (Hk : forall k, 0 < occurrences k keys ->
                 In (k, occurrences k keys) (tally keys)).
  { intros k Hk. rewrite <- Hcount in *. now apply countIn_found. }
  rewrite Hrc. split; [cbn in Hlt; lia|]. split.
  - intros k. destruct (occurrences k keys) as [|n] eqn:E; [lia|].
    specialize (Hk k ltac:(lia)). rewrite E in Hk. rewrite Hl in Hk.
    apply in_app_or in Hk as [Hk|[Heq|Hk]].
    + specialize (H1 _ Hk). cbn in H1. lia.
    + rewrite Heq. cbn. lia.
    + specialize (H2 _ Hk). cbn in H2. lia.
  - intros k Hlk. destruct (occurrences k keys) as [|n] eqn:E;
      [cbn in Hlt; lia|].
    specialize (Hk k ltac:(lia)). rewrite E in Hk.
    assert (Hin : In (k, S n) l1).
    { apply (before_in_ascending l1 l2 r); [now rewrite <- Hl| |exact Hlk].
      now rewrite <- Hl. }
    specialize (H1 _ Hin). cbn in H1. lia.
Qed.

(** X21: the peak hour named by [getPeakHour].  For a non-empty answer
    whose hours are hours of a day, the text names the range from an hour
    of the answer to the next one (after 11 PM comes 12 AM); no hour holds
    more bottles than that hour, and every earlier hour holds fewer: of
    equally busy hours the earliest is named.  An empty or null answer
    gives 'No bottles today', a failed query 'No data available'. *)
Theorem getPeakHour_names_busiest_hour (rows : list Bottle.t) :
  (rows <> [] -> Forall (fun b => Bottle.hour b < 24) rows ->
   exists peak,
     peak < 24
     /\ getPeakHour (data (Some rows))
        = formatHour peak ++ " - " ++ formatHour ((peak + 1) mod 24)
     /\ In peak (map Bottle.hour rows)
     /\ (forall h, occurrences h (map Bottle.hour rows)
                   <= occurrences peak (map Bottle.hour rows))
     /\ (forall h, h < peak ->
           occurrences h (map Bottle.hour rows)
           < occurrences peak (map Bottle.hour rows)))
  /\ getPeakHour (data (Some [])) = "No bottles today"
  /\ getPeakHour (data None) = "No bottles today"
  /\ (forall e, getPeakHour (fail e) = "No data available").
Proof.
  split; [|repeat split].
  intros Hne Hday.
  assert (Hkeys : map Bottle.hour rows <> [])
    by (destruct rows; [contradiction|discriminate]).
  destruct (mostFrequent_of_tally _ Hkeys) as (Hpos & Hmax & Hfirst).
  set (peak := fst (mostFrequent (tally (map Bottle.hour rows)))) in *.
  assert (Hin : In peak (map Bottle.hour rows))
    by (apply (count_occ_In Nat.eq_dec); exact Hpos).
  assert (Hlt : peak < 24).
  { apply in_map_iff in Hin as (b & <- & Hb).
    rewrite Forall_forall in Hday. now apply Hday. }
  exists peak. split; [exact Hlt|]. split; [|now repeat split].
  destruct rows as [|b rows]; [contradiction|].
  unfold getPeakHour. fold peak.
  destruct (peak =? 23)%nat eqn:E.
  - apply Nat.eqb_eq in E. now rewrite E.
  - apply Nat.eqb_neq in E. rewrite Nat.mod_small by lia. reflexivity.
Qed.

Lemma getPeakHour_names_busiest_hour_witness :
  let rows := [Bottle.mk 23 1; Bottle.mk 9 1; Bottle.mk 23 2; Bottle.mk 9 3] in
  getPeakHour (data (Some rows)) = "9:00 AM - 10:00 AM"
  /\ exists peak,
       getPeakHour (data (Some rows))
       = formatHour peak ++ " - " ++ formatHour ((peak + 1) mod 24)
       /\ occurrences 23 (map Bottle.hour rows)
          <= occurrences peak (map Bottle.hour rows).
Proof.
  intros rows. split; [reflexivity|].
  destruct (proj1 (getPeakHour_names_busiest_hour rows)
              ltac:(discriminate)
              ltac:(repeat constructor; cbn; lia))
    as (peak & _ & H & _ & Hmax & _).
  exists peak. split; [exact H | exact (Hmax 23)].
Defined.

(** X22: the day named by [getBusiestDay].  For a non-empty answer whose
    days are days of a week, the result is the name in [dayNames] of a day
    of the answer that no day beats, the earliest in the week among the
    equally busy.  An empty, null or failed answer gives 'No data'. *)
Theorem getBusiestDay_names_busiest_day (rows : list Bottle.t) :
  (rows <> [] -> Forall (fun b => Bottle.day b < 7) rows ->
   exists busiest name,
     nth_error dayNames busiest = Some name
     /\ getBusiestDay (data (Some rows)) = Some name
     /\ In busiest (map Bottle.day rows)
     /\ (forall d, occurrences d (map Bottle.day rows)
                   <= occurrences busiest (map Bottle.day rows))
     /\ (forall d, d < busiest ->
           occurrences d (map Bottle.day rows)
           < occurrences busiest (map Bottle.day rows)))
  /\ getBusiestDay (data (Some [])) = Some "No data"
  /\ getBusiestDay (data None) = Some "No data"
  /\ (forall e, getBusiestDay (fail e) = Some "No data").
Proof.
  split; [|repeat split].
  intros Hne Hweek.
  assert (Hkeys : map Bottle.day rows <> [])
    by (destruct rows; [contradiction|discriminate]).
  destruct (mostFrequent_of_tally _ Hkeys) as (Hpos & Hmax & Hfirst).
  set (busiest := fst (mostFrequent (tally (map Bottle.day rows)))) in *.
  assert (Hin : In busiest (map Bottle.day rows))
    by (apply (count_occ_In Nat.eq_dec); exact Hpos).
  assert (Hlt : busiest < List.length dayNames).
  { apply in_map_iff in Hin as (b & <- & Hb).
    rewrite Forall_forall in Hweek. now apply Hweek. }
  destruct (nth_error dayNames busiest) as [name|] eqn:Hname;
    [|apply nth_error_None in Hname; lia].
  exists busiest, name. split; [exact Hname|]. split; [|now repeat split].
  destruct rows as [|b rows]; [contradiction|].
  unfold getBusiestDay. fold busiest. exact Hname.
Qed.

Lemma getBusiestDay_names_busiest_day_witness :
  let rows := [Bottle.mk 23 1; Bottle.mk 9 5; Bottle.mk 23 5; Bottle.mk 9 1] in
  getBusiestDay (data (Some rows)) = Some "Monday"
  /\ exists busiest name,
       nth_error dayNames busiest = Some name
       /\ getBusiestDay (data (Some rows)) = Some name.
Proof.
  intros rows. split; [reflexivity|].
  destruct (proj1 (getBusiestDay_names_busiest_day rows)
              ltac:(discriminate)
              ltac:(repeat constructor; cbn; lia))
    as (busiest & name & H1 & H2 & _).
  exists busiest, name. now split.
Defined.

Lemma formatHour_distinct_on_day :
  forallb (fun h =>
             forallb (fun h' =>
                        implb (formatHour h =? formatHour h')
                          (h =? h')%nat)
               (seq 0 24))
    (seq 0 24) = true.
Proof. vm_compute. reflexivity. Qed.

(** X23: [formatHour] is a 12-hour clock on the hours of a day.  For an
    hour below 24 the number shown is between 1 and 12 and equals the
    hour modulo 12, the suffix is PM exactly from noon on, and different
    hours of the day give different texts. *)
Theorem formatHour_is_a_12_hour_clock (hour : nat) :
  hour < 24 ->
  formatHour hour
  = decimal (displayHour hour) ++ ":00 " ++ period hour
  /\ 1 <= displayHour hour <= 12
  /\ displayHour hour mod 12 = hour mod 12
  /\ (period hour = "PM" <-> 12 <= hour)
  /\ (period hour = "AM" <-> hour < 12)
  /\ forall other, other < 24 -> formatHour hour = formatHour other ->
       hour = other.
Proof.
  intros Hlt.
  assert (Hinj : forall other, other < 24 ->
                   formatHour hour = formatHour other -> hour = other).
  { intros other Ho Heq. pose proof formatHour_distinct_on_day as Hall.
    rewrite forallb_forall in Hall.
    specialize (Hall hour ltac:(apply in_seq; lia)).
    rewrite forallb_forall in Hall.
    specialize (Hall other ltac:(apply in_seq; lia)).
    rewrite Heq, String.eqb_refl in Hall. now apply Nat.eqb_eq in Hall. }
  split; [reflexivity|]. unfold displayHour, period.
  destruct (Nat.ltb_spec 12 hour) as [H1|H1];
    destruct (Nat.eqb_spec hour 0) as [H0|H0];
    destruct (Nat.leb_spec 12 hour) as [H2|H2]; try lia.
  - split; [lia|]. split.
    { rewrite (Nat.mod_small (hour - 12)) by lia.
      apply Nat.mod_unique with (q := 1); lia. }
    split; [split; [intros; lia|reflexivity]|].
    split; [split; [discriminate|intros; lia]|exact Hinj].
  - subst hour. split; [lia|]. split; [reflexivity|].
    split; [split; [discriminate|intros; lia]|].
    split; [split; [intros; lia|reflexivity]|exact Hinj].
  - split; [lia|]. split; [reflexivity|].
    split; [split; [intros; lia|reflexivity]|].
    split; [split; [discriminate|intros; lia]|exact Hinj].
  - split; [lia|]. split; [reflexivity|].
    split; [split; [discriminate|intros; lia]|].
    split; [split; [intros; lia|reflexivity]|exact Hinj].
Qed.

Lemma formatHour_is_a_12_hour_clock_witness :
  1 <= displayHour 13 <= 12 /\ period 13 = "PM".
Proof.
  destruct (formatHour_is_a_12_hour_clock 13 ltac:(lia))
    as (_ & H1 & _ & H2 & _).
  split; [exact H1|]. apply H2. lia.
Defined.

(* ===================================================================== *)
(** ** Part 9: the dashboard counts *)
(* ===================================================================== *)

(** X24: [fetchStats] sets the three counts together or not at all.  It
    always ends the loading; when one of its queries fails, the counts
    shown stay as they were and one error alert is added; otherwise the
    counts are those of the store, and pending and completed together
    never exceed the number of stored requests. *)
Theorem fetchStats_all_or_nothing
  (usersError pendingError completedError : option string)
  (d : Db) (p : Dashboard) :
  let p' := fetchStats usersError pendingError completedError d p in
  stats_loading p' = false
  /\ (usersError <> None \/ pendingError <> None \/ completedError <> None ->
      stats p' = stats p
      /\ dashboard_alerts p'
         = (dashboard_alerts p
            ++ [AlertText "Error" "Failed to load statistics"])%list)
  /\ (usersError = None -> pendingError = None -> completedError = None ->
      dashboard_alerts p' = dashboard_alerts p
      /\ DashboardStats.totalUsers (stats p') = List.length (user_profiles d)
      /\ DashboardStats.pendingRequests (stats p')
         = statusCount ReqStatus.pending (redemption_requests d)
      /\ DashboardStats.completedRequests (stats p')
         = statusCount ReqStatus.completed (redemption_requests d)
      /\ DashboardStats.pendingRequests (stats p')
         + DashboardStats.completedRequests (stats p')
         <= List.length (redemption_requests d)).
Proof.
  intros p'. subst p'. unfold fetchStats, countQueries.
  split; [|split].
  - destruct usersError, pendingError, completedError; reflexivity.
  - intros H.
    destruct usersError; [now split|].
    destruct pendingError; [now split|].
    destruct completedError; [now split|].
    destruct H as [H|[H|H]]; contradiction.
  - intros -> -> ->. cbn. repeat split.
    unfold statusCount.
    induction (redemption_requests d) as [|r l IH]; cbn; [lia|].
    destruct (RedemptionRequest.status r); cbn; lia.
Qed.

Lemma fetchStats_all_or_nothing_witness :
  let p := mkDashboard (DashboardStats.mk 3 2 1) true [] [] in
  let d := db (Sample.world 1000 ReqStatus.pending []) in
  stats (fetchStats None (Some "offline") None d p) = DashboardStats.mk 3 2 1
  /\ stats (fetchStats None None None d p) = DashboardStats.mk 1 1 0.
Proof.
  intros p d. split.
  - apply (proj1 (proj2 (fetchStats_all_or_nothing None (Some "offline") None
                           d p))).
    right; left. discriminate.
  - destruct (proj2 (proj2 (fetchStats_all_or_nothing None None None d p))
                eq_refl eq_refl eq_refl) as (_ & H1 & H2 & H3 & _).
    destruct (stats (fetchStats None None None d p)) as [a b c].
    cbn in H1, H2, H3. now rewrite H1, H2, H3.
Defined.

Lemma statusCount_rewrite (request : RedemptionRequest.t)
  (g : RedemptionRequest.t -> RedemptionRequest.t) (s new : ReqStatus.t)
  (rows : list RedemptionRequest.t) :
  (forall r, RedemptionRequest.status (g r) = new) ->
  statusCount s (map (fun r => if hasRequestId request r then g r else r) rows)
  + statusCount s (filter (hasRequestId request) rows)
  = statusCount s rows
    + (if ReqStatus.eqb new s
       then List.length (filter (hasRequestId request) rows) else 0).
Proof.
  intros Hg. unfold statusCount.
  induction rows as [|r l IH]; cbn [map filter List.length].
  - now destruct (ReqStatus.eqb new s).
  - destruct (hasRequestId request r) eqn:E; cbn [filter List.length].
    + rewrite Hg.
      destruct (ReqStatus.eqb new s),
               (ReqStatus.eqb (RedemptionRequest.status r) s);
        cbn [List.length]; lia.
    + destruct (ReqStatus.eqb (RedemptionRequest.status r) s);
        cbn [List.length]; lia.
Qed.

(** X25: the dashboard after an approval or a rejection.  When the store
    holds exactly one row with the id of the request, that row is pending,
    and the update of the request row goes through, the pending count of
    the dashboard is one less than before; the completed count is one more
    after an approval and unchanged after a rejection; this holds also
    when a later step of the handler throws. *)
Theorem dashboard_after_transition env request action w (r : RedemptionRequest.t) :
  requestsOf (RedemptionRequest.id request) (db w) = [r] ->
  RedemptionRequest.status r = ReqStatus.pending ->
  fault env UpdateRequest = None ->
  action <> Action.pending ->
  let before := redemption_requests (db w) in
  let after := redemption_requests
                 (db (fst (run (transition env request action) w))) in
  statusCount ReqStatus.pending after + 1 = statusCount ReqStatus.pending before
  /\ statusCount ReqStatus.completed after
     = statusCount ReqStatus.completed before
       + (match action with Action.completed => 1 | _ => 0 end).
Proof.
  intros Hone Hpending Hf Hact before after. subst before after.
  rewrite transition_requests_any, Hf.
  unfold requestsOf in Hone. fold (hasRequestId request) in Hone.
  pose proof (statusCount_rewrite request (updateData env action)
                ReqStatus.pending (Action.status action)
                (redemption_requests (db w)) (fun _ => eq_refl)) as Hp.
  pose proof (statusCount_rewrite request (updateData env action)
                ReqStatus.completed (Action.status action)
                (redemption_requests (db w)) (fun _ => eq_refl)) as Hc.
  rewrite Hone in Hp, Hc. unfold statusCount at 2 in Hp.
  unfold statusCount at 2 in Hc. cbn [filter List.length] in Hp, Hc.
  rewrite Hpending in Hp, Hc.
  destruct action; [contradiction| |]; cbn in Hp, Hc; lia.
Qed.

Lemma dashboard_after_transition_witness :
  let w := Sample.world 1000 ReqStatus.pending [] in
  let after := redemption_requests
                 (db (fst (run (transition Sample.env
                                  (Sample.request ReqStatus.pending)
                                  Action.completed) w))) in
  statusCount ReqStatus.pending after + 1 = 1
  /\ statusCount ReqStatus.completed after = 1.
Proof.
  intros w after.
  exact (dashboard_after_transition Sample.env
           (Sample.request ReqStatus.pending) Action.completed w
           (Sample.request ReqStatus.pending) eq_refl eq_refl eq_refl
           ltac:(discriminate)).
Defined.

